(** * colab-reachy-playground: the DynamixelMotor wrapper of the Unity notebook

    A shallow embedding of the motor abstraction defined in the notebook
    "Head control in Unity using the look_at function" (class
    [DynamixelMotor], its placeholder actuator [WsMotor], the one-shot
    [threading.Timer] behind the static-error fix) together with the
    properties the specification states about it.

    Python arithmetic is duck-typed: the same method body runs on [float]
    operands (what the notebooks feed it: offsets such as [26.0]) and on exact
    numbers.  The embedding is therefore written once over a numeric interface
    [PyNum] and instantiated twice, at IEEE binary64 and at exact rationals. *)

From Stdlib Require Import ZArith QArith Qcanon String List Bool Lia.
From Stdlib Require Import PrimFloat Uint63.
From Stdlib Require SpecFloat FloatOps FloatAxioms.
From stdpp Require Import base list gmap strings.

Set Warnings "-inexact-float".
Local Open Scope string_scope.

(* ===================================================================== *)
(** ** Numbers *)
(* ===================================================================== *)

(** The arithmetic the source uses: [+], [-], [*], true division [/],
    unary minus, [abs], the comparisons [==], [<], [<=] and the coercion of
    an [int] literal ([1], [-1], [2]) to the type of the other operand.
    Division is only ever applied to a divisor that is not zero (the literal
    [2], a positive duration), so [ZeroDivisionError] has no place here. *)
Class PyNum (A : Type) := {
  padd : A -> A -> A;
  psub : A -> A -> A;
  pmul : A -> A -> A;
  ptruediv : A -> A -> A;
  pneg : A -> A;
  pabs : A -> A;
  pint : Z -> A;
  peqb : A -> A -> bool;
  pltb : A -> A -> bool;
  pleb : A -> A -> bool
}.

(** Python's [a > b] is [b < a]. *)
Definition pgtb {A} `{PyNum A} (a b : A) : bool := pltb b a.

(** *** binary64: Python's [float] *)

(** [float(n)] for the [int] literals of the source (exact below [2^53]). *)
Definition float_of_int (z : Z) : float :=
  match z with
  | Zneg p => PrimFloat.opp (PrimFloat.of_uint63 (Uint63.of_Z (Zpos p)))
  | _ => PrimFloat.of_uint63 (Uint63.of_Z z)
  end.

#[export] Instance float_PyNum : PyNum float := {|
  padd := PrimFloat.add;
  psub := PrimFloat.sub;
  pmul := PrimFloat.mul;
  ptruediv := PrimFloat.div;
  pneg := PrimFloat.opp;
  pabs := PrimFloat.abs;
  pint := float_of_int;
  peqb := PrimFloat.eqb;
  pltb := PrimFloat.ltb;
  pleb := PrimFloat.leb
|}.

(** *** exact rationals: the arithmetic of the reals on rational operands
    (Python's [fractions.Fraction]) *)

Definition Qc_leb (x y : Qc) : bool := Qle_bool (this x) (this y).
Definition Qc_ltb (x y : Qc) : bool := negb (Qle_bool (this y) (this x)).
Definition Qc_abs (x : Qc) : Qc := if Qc_leb 0%Qc x then x else Qcopp x.

#[export] Instance Qc_PyNum : PyNum Qc := {|
  padd := Qcplus;
  psub := Qcminus;
  pmul := Qcmult;
  ptruediv := Qcdiv;
  pneg := Qcopp;
  pabs := Qc_abs;
  pint := fun z => Q2Qc (inject_Z z);
  peqb := Qc_eq_bool;
  pltb := Qc_ltb;
  pleb := Qc_leb
|}.

(* ===================================================================== *)
(** ** Exceptions *)
(* ===================================================================== *)

Inductive exn : Type :=
| ValueError (msg : string)
| AttributeError (attr : string).

Inductive result (T : Type) : Type :=
| Ok (v : T)
| Raise (e : exn).
Arguments Ok {T} v.
Arguments Raise {T} e.

(** [repr] of a tuple of plain strings, as an f-string prints it:
    [('linear', 'minjerk')], and [('linear',)] for a single element. *)
Definition repr_str (s : string) : string := "'" ++ s ++ "'".

Fixpoint join_repr (l : list string) : string :=
  match l with
  | [] => ""
  | [s] => repr_str s
  | s :: rest => repr_str s ++ ", " ++ join_repr rest
  end.

Definition repr_tuple (l : list string) : string :=
  match l with
  | [s] => "(" ++ repr_str s ++ ",)"
  | _ => "(" ++ join_repr l ++ ")"
  end.

(* ===================================================================== *)
(** ** The actuator placeholder and the timer *)
(* ===================================================================== *)

Module WsMotor.
Section WsMotor.
Context {A : Type} `{PyNum A}.

(** [class WsMotor]: plain attributes.  [target_rot_speed] and
    [power_ratio_limit] are not set by [__init__]; they exist only once
    the wrapper's [moving_speed] / [torque_limit] setters created them. *)
Record t := {
  name : string;
  compliant : bool;
  target_rot_position : A;
  rot_position : A;
  temperature : A;
  target_rot_speed : option A;
  power_ratio_limit : option A
}.

Definition __init__ (name : string) (initial_position : A) : t := {|
  name := name;
  compliant := false;
  target_rot_position := initial_position;
  rot_position := initial_position;
  temperature := pint 20;
  target_rot_speed := None;
  power_ratio_limit := None
|}.

Definition set_compliant (v : bool) (m : t) : t :=
  {| name := name m; compliant := v;
     target_rot_position := target_rot_position m;
     rot_position := rot_position m; temperature := temperature m;
     target_rot_speed := target_rot_speed m;
     power_ratio_limit := power_ratio_limit m |}.

Definition set_target_rot_position (v : A) (m : t) : t :=
  {| name := name m; compliant := compliant m;
     target_rot_position := v;
     rot_position := rot_position m; temperature := temperature m;
     target_rot_speed := target_rot_speed m;
     power_ratio_limit := power_ratio_limit m |}.

Definition set_rot_position (v : A) (m : t) : t :=
  {| name := name m; compliant := compliant m;
     target_rot_position := target_rot_position m;
     rot_position := v; temperature := temperature m;
     target_rot_speed := target_rot_speed m;
     power_ratio_limit := power_ratio_limit m |}.

Definition set_target_rot_speed (v : A) (m : t) : t :=
  {| name := name m; compliant := compliant m;
     target_rot_position := target_rot_position m;
     rot_position := rot_position m; temperature := temperature m;
     target_rot_speed := Some v;
     power_ratio_limit := power_ratio_limit m |}.

Definition set_power_ratio_limit (v : A) (m : t) : t :=
  {| name := name m; compliant := compliant m;
     target_rot_position := target_rot_position m;
     rot_position := rot_position m; temperature := temperature m;
     target_rot_speed := target_rot_speed m;
     power_ratio_limit := Some v |}.
End WsMotor.
Arguments t A : clear implicits.
End WsMotor.

Module Timer.
(** [threading.Timer]: created, started (waiting for its interval), then
    either cancelled or running its function, then finished. *)
Inductive state : Type := Created | Waiting | Cancelled | Running | Finished.

Record t := { interval : Z; st : state }.

Definition with_state (s : state) (x : t) : t :=
  {| interval := interval x; st := s |}.

(** [Timer.start()], which the source calls on a timer it has just
    created. *)
Definition start (x : t) : t :=
  match st x with
  | Created => with_state Waiting x
  | _ => x
  end.

(** [Timer.cancel()]: "this will only work if the timer is still in its
    waiting stage"; a function that already runs is not interrupted. *)
Definition cancel (x : t) : t :=
  match st x with
  | Created | Waiting => with_state Cancelled x
  | _ => x
  end.

Definition is_waiting (x : t) : bool :=
  match st x with Waiting => true | _ => false end.

(** How many timers of a store are waiting to fire. *)
Definition pending (l : list t) : nat := length (List.filter is_waiting l).
End Timer.

(* ===================================================================== *)
(** ** Trajectory players *)
(* ===================================================================== *)

(** What [getattr(self, starting_point)] can hand to a player: a number for
    the position registers, something else for the other attributes. *)
Inductive pyval (A : Type) : Type :=
| VNum (x : A)
| VBool (b : bool)
| VStr (s : string)
| VObj (what : string).
Arguments VNum {A} x.
Arguments VBool {A} b.
Arguments VStr {A} s.
Arguments VObj {A} what.

Module Trajectory.
Section Trajectory.
Context {A : Type} `{PyNum A}.

(** Modelled from the spec: [interpolationMode], "enum {linear, minjerk}". *)
Inductive mode : Type := Linear | MinJerk.

(** Modelled from the spec: what a player is created from, start value,
    target value, duration and mode. *)
Record player := {
  kind : mode;
  p0 : pyval A;
  pf : A;
  duration : A
}.

(** Modelled from the spec: the player classes stored in the
    [interpolation_modes] table are imported from the [reachy] package and
    are not part of the notebooks.  The spec (4.2, 7) has a player hold
    [(start, end, duration, mode)] and has a non-positive duration
    "rejected synchronously at player construction". *)
Definition new_player (k : mode) (start : pyval A) (goal d : A)
  : result player :=
  if pleb d (pint 0) then Raise (ValueError "duration must be positive")
  else Ok {| kind := k; p0 := start; pf := goal; duration := d |}.

(** Modelled from the spec: the [interpolation_modes] table, whose keys the
    spec and the docstring of [goto] give as ['linear'] and ['minjerk']. *)
Definition interpolation_modes
  : list (string * (pyval A -> A -> A -> result player)) :=
  [ ("linear", new_player Linear); ("minjerk", new_player MinJerk) ].

(** Modelled from the spec: "[t] in [[0, duration]], clamped at
    endpoints". *)
Definition clamp (d t : A) : A :=
  if pltb t (pint 0) then pint 0
  else if pltb d t then d
  else t.

(** Modelled from the spec: linear mode,
    [position(t) = start + (end-start) * (t/duration)]. *)
Definition linear_position (start end_ d t : A) : A :=
  padd start (pmul (psub end_ start) (ptruediv (clamp d t) d)).

(** Modelled from the spec: minjerk mode,
    [position(t) = start + (end-start) * (10 tau^3 - 15 tau^4 + 6 tau^5)]
    with [tau = t/duration]. *)
Definition minjerk_position (start end_ d t : A) : A :=
  let tau := ptruediv (clamp d t) d in
  let tau3 := pmul tau (pmul tau tau) in
  let tau4 := pmul tau tau3 in
  let tau5 := pmul tau tau4 in
  padd start
    (pmul (psub end_ start)
       (padd (psub (pmul (pint 10) tau3) (pmul (pint 15) tau4))
             (pmul (pint 6) tau5))).

(** Modelled from the spec: the position a player asks for at time [t],
    when its starting point is a number. *)
Definition position (p : player) (t : A) : option A :=
  match p0 p with
  | VNum start =>
      Some (match kind p with
            | Linear => linear_position start (pf p) (duration p) t
            | MinJerk => minjerk_position start (pf p) (duration p) t
            end)
  | _ => None
  end.

(** Calls made on a player object. *)
Inductive call : Type :=
| Start (p : player)
| Wait (p : player).
End Trajectory.
Arguments player A : clear implicits.
Arguments call A : clear implicits.
End Trajectory.

(** [d[k]] / [k in d.keys()] on a table kept in insertion order. *)
Fixpoint assoc {V : Type} (k : string) (d : list (string * V)) : option V :=
  match d with
  | [] => None
  | (k', v) :: rest => if String.eqb k k' then Some v else assoc k rest
  end.

(* ===================================================================== *)
(** ** class DynamixelMotor *)
(* ===================================================================== *)

Module DynamixelMotor.
Section DynamixelMotor.
Context {A : Type} `{PyNum A}.

(** The [config] dict: "must include 'offset' and 'orientation'". *)
Record config := { cfg_offset : A; cfg_orientation : string }.

(** The instance attributes.  [_root_part] keeps the root's [name];
    [_timer] is a reference into the store of timer objects. *)
Record t := {
  _root_part : string;
  _name : string;
  _motor : WsMotor.t A;
  _offset : A;
  _direct : bool;
  _timer : option nat;
  _use_static_fix : bool
}.

(** The [extra] dict of the [logger.info] call in [_fix_static_error]. *)
Record log_record := {
  log_goal_position : A;
  log_present_position : A;
  log_fixed_goal_position : A
}.

(** The motor together with the objects it creates or talks to: the timer
    objects, the log, and the calls made on trajectory players. *)
Record World := {
  self : t;
  timers : list Timer.t;
  log : list log_record;
  player_calls : list (Trajectory.call A)
}.

Definition with_motor (m : WsMotor.t A) (d : t) : t :=
  {| _root_part := _root_part d; _name := _name d; _motor := m;
     _offset := _offset d; _direct := _direct d; _timer := _timer d;
     _use_static_fix := _use_static_fix d |}.

Definition with_timer (r : option nat) (d : t) : t :=
  {| _root_part := _root_part d; _name := _name d; _motor := _motor d;
     _offset := _offset d; _direct := _direct d; _timer := r;
     _use_static_fix := _use_static_fix d |}.

Definition with_use_static_fix (b : bool) (d : t) : t :=
  {| _root_part := _root_part d; _name := _name d; _motor := _motor d;
     _offset := _offset d; _direct := _direct d; _timer := _timer d;
     _use_static_fix := b |}.

Definition with_self (d : t) (w : World) : World :=
  {| self := d; timers := timers w; log := log w;
     player_calls := player_calls w |}.

Definition with_timers (ts : list Timer.t) (w : World) : World :=
  {| self := self w; timers := ts; log := log w;
     player_calls := player_calls w |}.

Definition with_log (l : list log_record) (w : World) : World :=
  {| self := self w; timers := timers w; log := l;
     player_calls := player_calls w |}.

Definition with_player_calls (c : list (Trajectory.call A)) (w : World)
  : World :=
  {| self := self w; timers := timers w; log := log w;
     player_calls := c |}.

(** [__init__(self, root_part, name, luos_motor, config)] *)
Definition __init__ (root_part name : string) (luos_motor : WsMotor.t A)
    (cfg : config) : t := {|
  _root_part := root_part;
  _name := name;
  _motor := luos_motor;
  _offset := cfg_offset cfg;
  _direct := String.eqb (cfg_orientation cfg) "direct";
  _timer := None;
  _use_static_fix := false
|}.

(** [name] property: [f'{self._root_part.name}.{self._name}'] *)
Definition name (d : t) : string := _root_part d ++ "." ++ _name d.

Definition offset (d : t) : A := _offset d.
Definition is_direct (d : t) : bool := _direct d.

Definition _as_local_pos (d : t) (pos : A) : A :=
  psub (if is_direct d then pos else pneg pos) (offset d).

Definition _to_motor_pos (d : t) (pos : A) : A :=
  pmul (padd pos (offset d)) (if is_direct d then pint 1 else pint (-1)).

Definition present_position (d : t) : A :=
  _as_local_pos d (WsMotor.rot_position (_motor d)).

Definition goal_position (d : t) : A :=
  _as_local_pos d (WsMotor.target_rot_position (_motor d)).

Definition compliant (d : t) : bool := WsMotor.compliant (_motor d).

Definition temperature (d : t) : A := WsMotor.temperature (_motor d).

(** [compliant] setter: [self._motor.compliant = value] *)
Definition set_compliant (value : bool) (w : World) : World :=
  with_self (with_motor (WsMotor.set_compliant value (_motor (self w)))
               (self w)) w.

(** [moving_speed] and [torque_limit] setters *)
Definition set_moving_speed (value : A) (w : World) : World :=
  with_self (with_motor (WsMotor.set_target_rot_speed value
                           (_motor (self w))) (self w)) w.

Definition set_torque_limit (value : A) (w : World) : World :=
  with_self (with_motor (WsMotor.set_power_ratio_limit value
                           (_motor (self w))) (self w)) w.

(** [use_static_error_fix(self, activate)] *)
Definition use_static_error_fix (activate : bool) (w : World) : World :=
  with_self (with_use_static_fix activate (self w)) w.

(** [self._motor.target_rot_position = v] *)
Definition write_target (v : A) (w : World) : World :=
  with_self (with_motor (WsMotor.set_target_rot_position v
                           (_motor (self w))) (self w)) w.

(** [_schedule_static_error_fix(self, delay)]: cancel the timer
    [self._timer] refers to, if any; create a new timer, keep it in
    [self._timer], start it. *)
Definition _schedule_static_error_fix (delay : Z) (w : World) : World :=
  let w1 :=
    match _timer (self w) with
    | Some i => with_timers (alter Timer.cancel i (timers w)) w
    | None => w
    end in
  let i' := length (timers w1) in
  let w2 :=
    with_self (with_timer (Some i') (self w1))
      (with_timers (timers w1 ++ [ {| Timer.interval := delay;
                                      Timer.st := Timer.Created |} ]) w1) in
  with_timers (alter Timer.start i' (timers w2)) w2.

(** [goal_position] setter *)
Definition set_goal_position (value : A) (w : World) : World :=
  if negb (compliant (self w)) then
    let w1 := write_target (_to_motor_pos (self w) value) w in
    if _use_static_fix (self w1) then _schedule_static_error_fix 1 w1
    else w1
  else w.

(** [_fix_static_error(self, threshold=2)], the function the timer runs.
    Only the last statement of the branch touches [self._timer]. *)
Definition _fix_static_error (threshold : A) (w : World) : World :=
  let error := psub (present_position (self w)) (goal_position (self w)) in
  if pgtb (pabs error) threshold then
    let pos := padd (goal_position (self w)) (ptruediv error (pint 2)) in
    let w1 := with_log (log w ++ [ {|
                  log_goal_position := goal_position (self w);
                  log_present_position := present_position (self w);
                  log_fixed_goal_position := pos |} ]) w in
    let w2 := write_target (_to_motor_pos (self w1) pos) w1 in
    with_self (with_timer None (self w2)) w2
  else w.

(** [getattr(self, starting_point)] for the names the class defines:
    properties are evaluated, instance attributes read, methods and object
    references come back as opaque objects.  [moving_speed] and
    [torque_limit] read actuator attributes that exist only once set.
    Names inherited from [object] are not modelled and, like any other
    name, raise [AttributeError]. *)
Definition getattr (d : t) (attr : string) : result (pyval A) :=
  if String.eqb attr "present_position" then Ok (VNum (present_position d))
  else if String.eqb attr "goal_position" then Ok (VNum (goal_position d))
  else if String.eqb attr "offset" then Ok (VNum (offset d))
  else if String.eqb attr "_offset" then Ok (VNum (_offset d))
  else if String.eqb attr "temperature" then Ok (VNum (temperature d))
  else if String.eqb attr "moving_speed" then
    match WsMotor.target_rot_speed (_motor d) with
    | Some v => Ok (VNum v)
    | None => Raise (AttributeError "target_rot_speed")
    end
  else if String.eqb attr "torque_limit" then
    match WsMotor.power_ratio_limit (_motor d) with
    | Some v => Ok (VNum v)
    | None => Raise (AttributeError "power_ratio_limit")
    end
  else if String.eqb attr "compliant" then Ok (VBool (compliant d))
  else if String.eqb attr "_direct" then Ok (VBool (_direct d))
  else if String.eqb attr "_use_static_fix" then
    Ok (VBool (_use_static_fix d))
  else if String.eqb attr "name" then Ok (VStr (name d))
  else if String.eqb attr "_name" then Ok (VStr (_name d))
  else if existsb (String.eqb attr)
            [ "_root_part"; "_motor"; "_timer"; "is_direct";
              "_as_local_pos"; "_to_motor_pos"; "goto";
              "use_static_error_fix"; "_schedule_static_error_fix";
              "_fix_static_error" ]
  then Ok (VObj attr)
  else Raise (AttributeError attr).

(** [goto(self, goal_position, duration, starting_point, wait,
    interpolation_mode)], over the table [interpolation_modes] it looks the
    player class up in. *)
Definition goto
    (interpolation_modes
       : list (string * (pyval A -> A -> A -> result (Trajectory.player A))))
    (goal_position duration : A) (starting_point : string) (wait : bool)
    (interpolation_mode : string) (w : World)
  : result (Trajectory.player A) * World :=
  match assoc interpolation_mode interpolation_modes with
  | None =>
      let available := map fst interpolation_modes in
      (Raise (ValueError ("interpolation_mode should be one of "
                            ++ repr_tuple available)), w)
  | Some cls =>
      match getattr (self w) starting_point with
      | Raise e => (Raise e, w)
      | Ok p =>
          match cls p goal_position duration with
          | Raise e => (Raise e, w)
          | Ok traj_player =>
              let w1 := with_player_calls
                          (player_calls w ++ [Trajectory.Start traj_player])
                          w in
              let w2 := if wait
                        then with_player_calls
                               (player_calls w1
                                  ++ [Trajectory.Wait traj_player]) w1
                        else w1 in
              (Ok traj_player, w2)
          end
      end
  end.
End DynamixelMotor.
Arguments t A : clear implicits.
Arguments World A : clear implicits.
Arguments config A : clear implicits.
Arguments log_record A : clear implicits.
End DynamixelMotor.

(* ===================================================================== *)
(** ** A motor in use: what can happen to it, one step at a time *)
(* ===================================================================== *)

Module Session.
Import DynamixelMotor.
Section Session.
Context {A : Type} `{PyNum A}.

(** [find_dxl(io, part_name, dxl_name, dxl_config)]: the placeholder
    actuator starts at the physical position of the logical zero. *)
Definition find_dxl (part_name dxl_name : string) (dxl_config : config A)
  : WsMotor.t A :=
  let pos := pmul (cfg_offset dxl_config)
               (if String.eqb (cfg_orientation dxl_config) "indirect"
                then pint (-1) else pint 1) in
  WsMotor.__init__ (part_name ++ "." ++ dxl_name) pos.

(** One iteration of the loop of [attach_dxl_motors]: the wrapper around a
    fresh actuator, with no timer, log record or player yet. *)
Definition attach_dxl_motor (part_name motor_name : string)
    (cfg : config A) : World A := {|
  self := __init__ part_name motor_name
            (find_dxl part_name motor_name cfg) cfg;
  timers := [];
  log := [];
  player_calls := []
|}.

(** [_fix_static_error] cut before its last statement: everything up to and
    including the write of the target, and whether the branch was taken ... *)
Definition _fix_static_error_head (threshold : A) (w : World A)
  : bool * World A :=
  let error := psub (present_position (self w)) (goal_position (self w)) in
  if pgtb (pabs error) threshold then
    let pos := padd (goal_position (self w)) (ptruediv error (pint 2)) in
    let w1 := with_log (log w ++ [ {|
                  log_goal_position := goal_position (self w);
                  log_present_position := present_position (self w);
                  log_fixed_goal_position := pos |} ]) w in
    (true, write_target (_to_motor_pos (self w1) pos) w1)
  else (false, w).

(** ... and the last statement, [self._timer = None]. *)
Definition _fix_static_error_tail (w : World A) : World A :=
  with_self (with_timer None (self w)) w.

(** The [goal_position] setter cut where another thread may run.
    [set_goal_position_head] is the setter up to and including the first
    statement of [_schedule_static_error_fix], which cancels the timer
    [self._timer] refers to; it also tells whether the thread has entered
    [_schedule_static_error_fix] ... *)
Definition set_goal_position_head (value : A) (w : World A)
  : bool * World A :=
  if negb (compliant (self w)) then
    let w1 := write_target (_to_motor_pos (self w) value) w in
    if _use_static_fix (self w1) then
      (true,
       match _timer (self w1) with
       | Some i => with_timers (alter Timer.cancel i (timers w1)) w1
       | None => w1
       end)
    else (false, w1)
  else (false, w).

(** ... and [_schedule_static_error_fix_tail] is the rest of it:
    [self._timer = Timer(delay, self._fix_static_error)] and
    [self._timer.start()]. *)
Definition _schedule_static_error_fix_tail (delay : Z) (w : World A)
  : World A :=
  let i' := length (timers w) in
  let w2 :=
    with_self (with_timer (Some i') (self w))
      (with_timers (timers w ++ [ {| Timer.interval := delay;
                                     Timer.st := Timer.Created |} ]) w) in
  with_timers (alter Timer.start i' (timers w2)) w2.

(** Two threads assign [goal_position], one the value [a] and the other the
    value [b] (two trajectory players, or a player and a cell of the
    notebook).  The second thread runs its setter up to the cancelling of
    the old timer before the first thread creates its new one. *)
Definition interleaved_goal_writes (a b : A) (w : World A) : World A :=
  let '(in_a, w1) := set_goal_position_head a w in
  let '(in_b, w2) := set_goal_position_head b w1 in
  let w3 := if in_a then _schedule_static_error_fix_tail 1 w2 else w2 in
  if in_b then _schedule_static_error_fix_tail 1 w3 else w3.

Definition set_timer_state (i : nat) (s : Timer.state) (w : World A)
  : World A :=
  with_timers (alter (Timer.with_state s) i (timers w)) w.

Definition timer_state (i : nat) (w : World A) : option Timer.state :=
  Timer.st <$> timers w !! i.

(** What happens to a motor.  The first group are calls of the notebook's
    cells (or of a trajectory player's tick, which assigns
    [goal_position]); [Sync] is [WsServer.sync] storing the simulator's
    [present_position] in [rot_position]; the last group is the thread of
    timer [i].  [TimerRun] is [Timer.run] with the callback executed in one
    piece.  [TimerRunHead] and [TimerRunTail] execute the same callback in
    two pieces, so that calls of other threads may fall between them. *)
Inductive event : Type :=
| SetGoal (value : A)
| SetCompliant (value : bool)
| SetMovingSpeed (value : A)
| SetTorqueLimit (value : A)
| UseStaticErrorFix (activate : bool)
| Goto (goal_position duration : A) (starting_point : string)
       (wait : bool) (interpolation_mode : string)
| Sync (present_position : A)
| TimerRun (i : nat)
| TimerRunHead (i : nat)
| TimerRunTail (i : nat).

(** [Timer.run]: once the interval has elapsed, call the function unless
    the timer was cancelled; the callback is [self._fix_static_error] with
    its default [threshold=2]. *)
Definition step (e : event) (w : World A) : World A :=
  match e with
  | SetGoal v => set_goal_position v w
  | SetCompliant b => set_compliant b w
  | SetMovingSpeed v => set_moving_speed v w
  | SetTorqueLimit v => set_torque_limit v w
  | UseStaticErrorFix b => use_static_error_fix b w
  | Goto g d sp wt m =>
      snd (goto Trajectory.interpolation_modes g d sp wt m w)
  | Sync p =>
      with_self (with_motor (WsMotor.set_rot_position p (_motor (self w)))
                   (self w)) w
  | TimerRun i =>
      match timer_state i w with
      | Some Timer.Waiting =>
          set_timer_state i Timer.Finished
            (_fix_static_error (pint 2) (set_timer_state i Timer.Running w))
      | _ => w
      end
  | TimerRunHead i =>
      match timer_state i w with
      | Some Timer.Waiting =>
          let '(entered, w1) :=
            _fix_static_error_head (pint 2)
              (set_timer_state i Timer.Running w) in
          if entered then w1 else set_timer_state i Timer.Finished w1
      | _ => w
      end
  | TimerRunTail i =>
      match timer_state i w with
      | Some Timer.Running =>
          set_timer_state i Timer.Finished (_fix_static_error_tail w)
      | _ => w
      end
  end.

Definition run (es : list event) (w : World A) : World A :=
  fold_left (fun w e => step e w) es w.

(** Events in which every callback runs in one piece. *)
Definition atomic (e : event) : bool :=
  match e with
  | TimerRunHead _ | TimerRunTail _ => false
  | _ => true
  end.

(** The timers that are started and have neither fired nor been
    cancelled: the pending corrections. *)
Definition live_timers (w : World A) : list Timer.t :=
  List.filter Timer.is_waiting (timers w).

(** Every pending timer is the one [self._timer] refers to: what
    [_schedule_static_error_fix] relies on when it cancels [self._timer]
    before starting a new timer. *)
Definition timers_tracked (w : World A) : Prop :=
  forall (i : nat) (x : Timer.t),
    timers w !! i = Some x -> Timer.st x = Timer.Waiting ->
    _timer (self w) = Some i.

(** The assignments of [goal_position] among the events, and the
    corrections carried out so far: each leaves one record in the log. *)
Definition is_goal_write (e : event) : bool :=
  match e with SetGoal _ => true | _ => false end.

Definition goal_writes (es : list event) : nat :=
  length (List.filter is_goal_write es).

Definition corrections (w : World A) : nat := length (log w).
End Session.
End Session.

(* ===================================================================== *)
(** ** The Orbita disks *)
(* ===================================================================== *)

Module WsFakeOrbitaDisk.
Section WsFakeOrbitaDisk.
Context {A : Type} `{PyNum A}.

(** [class WsFakeOrbitaDisk].  [offset] is not set by [__init__]: it is the
    attribute [setup_orbita_disks] adds to a disk. *)
Record t := {
  name : string;
  compliant : bool;
  _target_rot_position : A;
  offset : option A
}.

Definition __init__ (name : string) (initial_position : A) : t := {|
  name := name;
  compliant := false;
  _target_rot_position := initial_position;
  offset := None
|}.

(** [setup(self)]: [pass] *)
Definition setup (d : t) : t := d.

Definition target_rot_position (d : t) : A := _target_rot_position d.

(** [rot_position]: the fake disk is where it was told to go. *)
Definition rot_position (d : t) : A := target_rot_position d.

Definition set_target_rot_position (new_pos : A) (d : t) : t :=
  {| name := name d; compliant := compliant d;
     _target_rot_position := new_pos; offset := offset d |}.

Definition set_compliant (v : bool) (d : t) : t :=
  {| name := name d; compliant := v;
     _target_rot_position := _target_rot_position d; offset := offset d |}.

Definition set_offset (v : A) (d : t) : t :=
  {| name := name d; compliant := compliant d;
     _target_rot_position := _target_rot_position d; offset := Some v |}.
End WsFakeOrbitaDisk.
Arguments t A : clear implicits.
End WsFakeOrbitaDisk.

Module Orbita.

(** [np.argmin] on a sequence of binary64 numbers: the first index that
    holds the least value, where a NaN counts as least.  The scan keeps the
    least value [best] seen so far, found at [best_i], and moves on to the
    element [d] at index [i] when [d >= best] fails; it stops at the first
    NaN it moves to. *)
Fixpoint argmin_from (best_i : nat) (best : float) (i : nat)
    (l : list float) : nat :=
  match l with
  | [] => best_i
  | d :: rest =>
      if negb (PrimFloat.leb best d) then
        if PrimFloat.is_nan d then i else argmin_from i d (S i) rest
      else argmin_from best_i best (S i) rest
  end.

(** On an empty sequence [np.argmin] raises; the source calls it on three
    distances. *)
Definition argmin (l : list float) : nat :=
  match l with
  | [] => 0
  | d0 :: rest =>
      if PrimFloat.is_nan d0 then 0 else argmin_from 0 d0 1 rest
  end.

(** [A = 360 / (52 / 24)]: true division of [int] literals, a binary64
    number whatever the type of the positions [_find_zero] is given. *)
Definition period : float :=
  PrimFloat.div (float_of_int 360)
    (PrimFloat.div (float_of_int 52) (float_of_int 24)).

(** [zeros = [z, -(A - z), A + z]] *)
Definition zeros (z : float) : list float :=
  [ z; PrimFloat.opp (PrimFloat.sub period z); PrimFloat.add period z ].

(** [_find_zero(disk, z)] *)
Definition _find_zero (disk : WsFakeOrbitaDisk.t float) (z : float) : float :=
  let p := WsFakeOrbitaDisk.rot_position disk in
  let distances :=
    map (fun z' => PrimFloat.abs (PrimFloat.sub p z')) (zeros z) in
  let best := argmin distances in
  nth best (zeros z) z.

(** The last loop of [setup_orbita_disks], over the store of disk objects:
    [for d, z in zip(disks, hardware_zero): d.offset = _find_zero(d, z) + 60].
    [zip] stops with the shorter of the two. *)
Fixpoint set_offsets (disks : list nat) (hardware_zero : list float)
    (objs : list (WsFakeOrbitaDisk.t float))
  : list (WsFakeOrbitaDisk.t float) :=
  match disks, hardware_zero with
  | d :: disks', z :: zeros' =>
      set_offsets disks' zeros'
        (alter (fun o => WsFakeOrbitaDisk.set_offset
                           (PrimFloat.add (_find_zero o z) (float_of_int 60))
                           o) d objs)
  | _, _ => objs
  end.

(** [setup_orbita_disks(disks, hardware_zero)]: [disks] are references
    into the store [objs]. *)
Definition setup_orbita_disks (disks : list nat) (hardware_zero : list float)
    (objs : list (WsFakeOrbitaDisk.t float))
  : list (WsFakeOrbitaDisk.t float) :=
  let objs1 :=
    fold_left (fun objs d => alter WsFakeOrbitaDisk.setup d objs) disks objs in
  set_offsets disks hardware_zero objs1.
End Orbita.

(* ===================================================================== *)
(** ** class LookAt *)
(* ===================================================================== *)

Module LookAt.
Section LookAt.
Context {A : Type} `{PyNum A}.

(** What [self.head.look_at(...)] does when it is called: it returns the
    trajectory players it started, or raises. *)
Inductive error : Type :=
| Err_ValueError
| Err_ZeroDivisionError
| Err_other (kind : string).

Inductive outcome : Type :=
| Returned (trajs : list nat)
| Raised (e : error).

(** One call of [head.look_at(x, y, z, duration=..., wait=...)]. *)
Record look_at_call := {
  call_target : A * A * A;
  call_duration : A;
  call_wait : bool
}.

(** The instance attributes, with what the calls leave behind: the players
    [stop()] was called on, the calls of [head.look_at], the players those
    calls handed out, and the targets the cell's output reports as out of
    reach ([clear_output] empties it before each message). *)
Record t := {
  trajs : option (list nat);
  target : A * A * A;
  period : A;
  stopped : list nat;
  look_at_calls : list look_at_call;
  handed_out : list nat;
  display : list (A * A * A)
}.

(** [__init__(self, head, init_target, period)] *)
Definition __init__ (init_target : A * A * A) (period : A) : t := {|
  trajs := None;
  target := init_target;
  period := period;
  stopped := [];
  look_at_calls := [];
  handed_out := [];
  display := []
|}.

(** [==] on two triples of numbers. *)
Definition target_eqb (a b : A * A * A) : bool :=
  let '(ax, ay, az) := a in
  let '(bx, by_, bz) := b in
  peqb ax bx && peqb ay by_ && peqb az bz.

(** [set_target(self, x, y, z)], given what [head.look_at] answers should it
    be called.  The second component is the exception that leaves the
    method, if any. *)
Definition set_target (x y z : A) (answer : outcome) (s : t)
  : t * option error :=
  if target_eqb (target s) (x, y, z) then (s, None)
  else
    let stopped1 :=
      match trajs s with
      | Some ts => (stopped s ++ ts)%list
      | None => stopped s
      end in
    let calls1 :=
      (look_at_calls s ++ [ {| call_target := (x, y, z);
                               call_duration := period s;
                               call_wait := false |} ])%list in
    match answer with
    | Returned ts =>
        ({| trajs := Some ts; target := (x, y, z); period := period s;
            stopped := stopped1; look_at_calls := calls1;
            handed_out := (handed_out s ++ ts)%list;
            display := display s |}, None)
    | Raised Err_ValueError | Raised Err_ZeroDivisionError =>
        ({| trajs := trajs s; target := (x, y, z); period := period s;
            stopped := stopped1; look_at_calls := calls1;
            handed_out := handed_out s;
            display := [ (x, y, z) ] |}, None)
    | Raised (Err_other kind) =>
        ({| trajs := trajs s; target := (x, y, z); period := period s;
            stopped := stopped1; look_at_calls := calls1;
            handed_out := handed_out s;
            display := display s |}, Some (Err_other kind))
    end.

(** The widget's [loop(x, y, z)], called once per slider move, each with
    what [head.look_at] answers should it be called; the exceptions that
    left [set_target] are collected. *)
Fixpoint moves (ms : list (A * A * A * outcome)) (s : t) : t * list error :=
  match ms with
  | [] => (s, [])
  | (x, y, z, answer) :: rest =>
      let '(s1, e) := set_target x y z answer s in
      let '(s2, es) := moves rest s1 in
      (s2, match e with Some e => e :: es | None => es end)
  end.

End LookAt.
Arguments t A : clear implicits.
End LookAt.

(* ===================================================================== *)
(** ** The WebSocket gateway *)
(* ===================================================================== *)

Module Gateway.
Import DynamixelMotor.
Section Gateway.
Context {A : Type} `{PyNum A}.

(** [class WsIO]: an io keeps references to the actuators and disks it
    created. *)
Record WsIO := {
  part_name : string;
  io_motors : list nat;
  io_disks : list nat
}.

(** [class WsServer], for a server to which no camera and no force sensor
    was attached ([find_dual_camera] and [find_module] were not called, so
    every [hasattr] test of [sync] fails).  [parts] refers to ios,
    [motors] maps a name to an actuator; [background] tells whether
    [run_in_background] started the thread. *)
Record WsServer := {
  host : string;
  port : Z;
  running : bool;
  parts : list nat;
  motors : gmap string nat;
  background : bool
}.

(** The objects: actuators, disks and ios, referred to by their index, and
    the class attribute [WsIO.ws]. *)
Record Store := {
  motor_objs : list (WsMotor.t A);
  disk_objs : list (WsFakeOrbitaDisk.t A);
  io_objs : list WsIO;
  ws : option WsServer
}.

Definition empty : Store :=
  {| motor_objs := []; disk_objs := []; io_objs := []; ws := None |}.

Definition with_motor_objs (l : list (WsMotor.t A)) (s : Store) : Store :=
  {| motor_objs := l; disk_objs := disk_objs s; io_objs := io_objs s;
     ws := ws s |}.

Definition with_disk_objs (l : list (WsFakeOrbitaDisk.t A)) (s : Store)
  : Store :=
  {| motor_objs := motor_objs s; disk_objs := l; io_objs := io_objs s;
     ws := ws s |}.

Definition with_io_objs (l : list WsIO) (s : Store) : Store :=
  {| motor_objs := motor_objs s; disk_objs := disk_objs s; io_objs := l;
     ws := ws s |}.

Definition with_ws (srv : WsServer) (s : Store) : Store :=
  {| motor_objs := motor_objs s; disk_objs := disk_objs s;
     io_objs := io_objs s; ws := Some srv |}.

(** [WsServer.__init__(self, host='0.0.0.0', port=6171)] *)
Definition new_server : WsServer :=
  {| host := "0.0.0.0"; port := 6171; running := false; parts := [];
     motors := ∅; background := false |}.

(** [run_in_background(self)] *)
Definition run_in_background (srv : WsServer) : WsServer :=
  {| host := host srv; port := port srv; running := running srv;
     parts := parts srv; motors := motors srv; background := true |}.

(** [register(self, io)] *)
Definition register (io : nat) (srv : WsServer) : WsServer :=
  {| host := host srv; port := port srv; running := running srv;
     parts := (parts srv ++ [io])%list; motors := motors srv;
     background := background srv |}.

Definition set_motor (name : string) (m : nat) (srv : WsServer) : WsServer :=
  {| host := host srv; port := port srv; running := running srv;
     parts := parts srv; motors := <[name := m]> (motors srv);
     background := background srv |}.

Definition set_running (b : bool) (srv : WsServer) : WsServer :=
  {| host := host srv; port := port srv; running := b;
     parts := parts srv; motors := motors srv;
     background := background srv |}.

(** [WsIO.shared_server(cls, part_name)]: a new io, registered with the one
    server of the class, which the first call creates and starts. *)
Definition shared_server (part_name : string) (s : Store) : nat * Store :=
  let io := length (io_objs s) in
  let s1 := with_io_objs
              (io_objs s ++ [ {| part_name := part_name; io_motors := [];
                                 io_disks := [] |} ])%list s in
  let srv := match ws s1 with
             | None => run_in_background new_server
             | Some srv => srv
             end in
  (io, with_ws (register io srv) s1).

(** Successive calls of [WsIO.shared_server], one per part name. *)
Fixpoint shared_servers (part_names : list string) (s : Store)
  : list nat * Store :=
  match part_names with
  | [] => ([], s)
  | n :: rest =>
      let '(io, s1) := shared_server n s in
      let '(ios, s2) := shared_servers rest s1 in
      (io :: ios, s2)
  end.

Definition add_io_motor (m : nat) (o : WsIO) : WsIO :=
  {| part_name := part_name o; io_motors := (io_motors o ++ [m])%list;
     io_disks := io_disks o |}.

Definition add_io_disks (ds : list nat) (o : WsIO) : WsIO :=
  {| part_name := part_name o; io_motors := io_motors o;
     io_disks := (io_disks o ++ ds)%list |}.

(** [find_dxl(io, part_name, dxl_name, dxl_config)]: a new actuator, appended
    to [io.motors], then stored in [io.ws.motors] under its name.  Without
    a server [io.ws] is [None] and the last statement raises. *)
Definition find_dxl (io : nat) (part_name dxl_name : string)
    (dxl_config : config A) (s : Store) : result nat * Store :=
  let m := Session.find_dxl part_name dxl_name dxl_config in
  let r := length (motor_objs s) in
  let s1 := with_io_objs (alter (add_io_motor r) io (io_objs s))
              (with_motor_objs (motor_objs s ++ [m])%list s) in
  match ws s1 with
  | None => (Raise (AttributeError "motors"), s1)
  | Some srv => (Ok r, with_ws (set_motor (WsMotor.name m) r srv) s1)
  end.

(** A [DynamixelMotor] object: the reference it keeps in [_motor], and the
    rest of it.  The actuator inside [h_world] is a copy, brought up to date
    by [load] before each use. *)
Record handle := {
  h_motor : nat;
  h_world : World A
}.

(** [attach_dxl_motors(io, part_name, dxl_motors)]: [motors_dict] is the
    dictionary built so far. *)
Fixpoint attach_loop (io : nat) (part_name : string)
    (dxl_motors : list (string * config A))
    (motors_dict : gmap string handle) (s : Store)
  : result (gmap string handle) * Store :=
  match dxl_motors with
  | [] => (Ok motors_dict, s)
  | (motor_name, cfg) :: rest =>
      match find_dxl io part_name motor_name cfg s with
      | (Raise e, s1) => (Raise e, s1)
      | (Ok dxl, s1) =>
          let m := {| h_motor := dxl;
                      h_world := Session.attach_dxl_motor part_name
                                   motor_name cfg |} in
          attach_loop io part_name rest (<[motor_name := m]> motors_dict) s1
      end
  end.

Definition attach_dxl_motors (io : nat) (part_name : string)
    (dxl_motors : list (string * config A)) (s : Store)
  : result (gmap string handle) * Store :=
  attach_loop io part_name dxl_motors ∅ s.

(** The wrapper as a call on it finds it: around the actuator's present
    state. *)
Definition load (s : Store) (h : handle) : World A :=
  match motor_objs s !! h_motor h with
  | Some m => with_self (with_motor m (self (h_world h))) (h_world h)
  | None => h_world h
  end.

(** A method of the wrapper called through the handle: what it does to the
    actuator lands in the store. *)
Definition call (f : World A -> World A) (h : handle) (s : Store)
  : handle * Store :=
  let w := f (load s h) in
  ({| h_motor := h_motor h; h_world := w |},
   with_motor_objs (<[h_motor h := _motor (self w)]> (motor_objs s)) s).

(** [find_orbita_disks(self)] *)
Definition find_orbita_disks (io : nat) (s : Store) : list nat * Store :=
  match io_objs s !! io with
  | None => ([], s)
  | Some o =>
      let bottomOrb := WsFakeOrbitaDisk.__init__
                         (part_name o ++ ".disk_bottom") (pint (-60)) in
      let middleOrb := WsFakeOrbitaDisk.__init__
                         (part_name o ++ ".disk_middle") (pint (-60)) in
      let topOrb := WsFakeOrbitaDisk.__init__
                      (part_name o ++ ".disk_top") (pint (-60)) in
      let r := length (disk_objs s) in
      let disks := [ r; S r; S (S r) ] in
      (disks,
       with_io_objs (alter (add_io_disks disks) io (io_objs s))
         (with_disk_objs
            (disk_objs s ++ [ bottomOrb; middleOrb; topOrb ])%list s))
  end.

(** One entry of the message [sync] sends. *)
Record entry := {
  e_name : string;
  e_goal_position : A
}.

Record message := {
  msg_motors : list entry;
  msg_disks : list entry
}.

(** [sum([p.motors for p in self.parts], [])] and the same for disks. *)
Definition all_motors (srv : WsServer) (s : Store) : list nat :=
  concat (omap (fun p => io_motors <$> io_objs s !! p) (parts srv)).

Definition all_disks (srv : WsServer) (s : Store) : list nat :=
  concat (omap (fun p => io_disks <$> io_objs s !! p) (parts srv)).

Definition outgoing (srv : WsServer) (s : Store) : message := {|
  msg_motors :=
    omap (fun r =>
            (fun m => {| e_name := WsMotor.name m;
                         e_goal_position := WsMotor.target_rot_position m |})
              <$> motor_objs s !! r) (all_motors srv s);
  msg_disks :=
    omap (fun r =>
            (fun d => {| e_name := WsFakeOrbitaDisk.name d;
                         e_goal_position :=
                           WsFakeOrbitaDisk.target_rot_position d |})
              <$> disk_objs s !! r) (all_disks srv s)
|}.

(** [for m in state['motors']: if m['name'] in self.motors:
    self.motors[m['name']].rot_position = m['present_position']] *)
Definition incoming (srv : WsServer) (state_motors : list (string * A))
    (objs : list (WsMotor.t A)) : list (WsMotor.t A) :=
  fold_left
    (fun objs m =>
       match motors srv !! m.1 with
       | Some r => alter (WsMotor.set_rot_position m.2) r objs
       | None => objs
       end) state_motors objs.

(** One turn of the loop of [sync]: the message sent, then the client's
    answer taken in. *)
Definition sync_round (srv : WsServer) (state_motors : list (string * A))
    (s : Store) : message * Store :=
  (outgoing srv s,
   with_motor_objs (incoming srv state_motors (motor_objs s)) s).

(** [sync(self, websocket, path)] while the socket is open and nobody
    clears [running]: one round per answer of the client. *)
Fixpoint sync_rounds (srv : WsServer) (answers : list (list (string * A)))
    (s : Store) : list message * Store :=
  match answers with
  | [] => ([], s)
  | a :: rest =>
      let '(msg, s1) := sync_round srv a s in
      let '(msgs, s2) := sync_rounds srv rest s1 in
      (msg :: msgs, s2)
  end.

Definition sync (answers : list (list (string * A))) (s : Store)
  : list message * Store :=
  match ws s with
  | None => ([], s)
  | Some srv =>
      let srv1 := set_running true srv in
      sync_rounds srv1 answers (with_ws srv1 s)
  end.
End Gateway.
Arguments Store A : clear implicits.
Arguments handle A : clear implicits.
Arguments entry A : clear implicits.
Arguments message A : clear implicits.
End Gateway.

(* ===================================================================== *)
(** * Properties *)
(* ===================================================================== *)

Import DynamixelMotor Session.

(** The left antenna of the head notebook's configuration ([offset] 26.0,
    [direct]) over binary64, as [attach_dxl_motors] leaves it. *)
Definition left_antenna : config float :=
  {| cfg_offset := 26%float; cfg_orientation := "direct" |}.

Definition left_antenna_world : World float :=
  attach_dxl_motor "head" "left_antenna" left_antenna.

(** An arm joint of the right-arm configuration ([offset] 90.0,
    [indirect]). *)
Definition shoulder_pitch : config float :=
  {| cfg_offset := 90%float; cfg_orientation := "indirect" |}.

Definition shoulder_pitch_world : World float :=
  attach_dxl_motor "right_arm" "shoulder_pitch" shoulder_pitch.

(** Three goal writes with the static fix on, the second of which lands
    while the callback of the first write's timer is between its write of
    the target and its last statement.  The simulator has not moved the
    antenna, so the callback finds a residual error of 10 degrees. *)
Definition goal_write_inside_callback : list (event (A := float)) :=
  [ UseStaticErrorFix true;
    SetGoal 10%float;
    TimerRunHead 0;
    SetGoal 20%float;
    TimerRunTail 0;
    SetGoal 30%float ].

(** The whole numbers of degrees from [lo] up to [lo + n - 1], as floats. *)
Fixpoint whole_degrees (lo : Z) (n : nat) : list float :=
  match n with
  | O => []
  | S n' => float_of_int lo :: whole_degrees (lo + 1) n'
  end.

(** The motor configurations of the notebooks: offsets 26.0, 90.0, 0.0 and
    -90.0, either orientation. *)
Definition notebook_configs : list (config float) :=
  [ {| cfg_offset := 26%float; cfg_orientation := "direct" |};
    {| cfg_offset := 90%float; cfg_orientation := "direct" |};
    {| cfg_offset := 0%float; cfg_orientation := "direct" |};
    {| cfg_offset := 90%float; cfg_orientation := "indirect" |};
    {| cfg_offset := 0%float; cfg_orientation := "indirect" |};
    {| cfg_offset := (-90)%float; cfg_orientation := "indirect" |} ].

(** The left antenna over exact rationals. *)
Definition left_antenna_exact : config Qc :=
  {| cfg_offset := Q2Qc 26; cfg_orientation := "direct" |}.

(** The head's motors as the notebook configures them, the store after
    [io = WsIO.shared_server('head')], and the store and server after
    [attach_dxl_motors(io, "head", head_dxl_motors)]. *)
Definition head_dxl_motors : list (string * config float) :=
  [ ("left_antenna",
     {| cfg_offset := 0%float; cfg_orientation := "direct" |});
    ("right_antenna",
     {| cfg_offset := 0%float; cfg_orientation := "direct" |}) ].

Definition head_store : Gateway.Store float :=
  (Gateway.shared_server "head" Gateway.empty).2.

Definition head_server : Gateway.WsServer :=
  Gateway.register 0 (Gateway.run_in_background Gateway.new_server).

Definition antennas_store : Gateway.Store float :=
  (Gateway.attach_dxl_motors 0 "head" head_dxl_motors head_store).2.

Definition antennas_server : Gateway.WsServer :=
  default Gateway.new_server (Gateway.ws antennas_store).

Definition left_antenna_handle : Gateway.handle float :=
  {| Gateway.h_motor := 0;
     Gateway.h_world :=
       attach_dxl_motor "head" "left_antenna"
         {| cfg_offset := 0%float; cfg_orientation := "direct" |} |}.

(** The disks of the head's io and the hardware zeros the notebook prints. *)
Definition head_disks : list nat * Gateway.Store float :=
  Gateway.find_orbita_disks 0 head_store.

Definition hardware_zero : list float :=
  [ 115.975%float; 66.364%float; 111.107%float ].

(** ** Accessors commute with the record updates *)

Section Frames.
Context {A : Type} `{PyNum A}.

Lemma self_write_target (v : A) (w : World A) :
  self (write_target v w)
  = with_motor (WsMotor.set_target_rot_position v (_motor (self w))) (self w).
Proof. reflexivity. Qed.

Lemma timers_write_target (v : A) (w : World A) :
  timers (write_target v w) = timers w.
Proof. reflexivity. Qed.

Lemma timers_fix_static_error (threshold : A) (w : World A) :
  timers (_fix_static_error threshold w) = timers w.
Proof.
  unfold _fix_static_error.
  destruct (pgtb _ threshold); reflexivity.
Qed.

Lemma fix_static_error_split (threshold : A) (w : World A) :
  _fix_static_error threshold w
  = let '(entered, w1) := _fix_static_error_head threshold w in
    if entered then _fix_static_error_tail w1 else w1.
Proof.
  unfold _fix_static_error, _fix_static_error_head.
  destruct (pgtb _ threshold); reflexivity.
Qed.

Lemma timers_set_timer_state (i : nat) (s : Timer.state) (w : World A) :
  timers (set_timer_state i s w)
  = alter (Timer.with_state s) i (timers w).
Proof. reflexivity. Qed.

Lemma log_set_timer_state (i : nat) (s : Timer.state) (w : World A) :
  log (set_timer_state i s w) = log w.
Proof. reflexivity. Qed.

Lemma self_set_timer_state (i : nat) (s : Timer.state) (w : World A) :
  self (set_timer_state i s w) = self w.
Proof. reflexivity. Qed.

Lemma set_goal_position_compliant (value : A) (w : World A) :
  compliant (self w) = true -> set_goal_position value w = w.
Proof. intros Hc. unfold set_goal_position. rewrite Hc. reflexivity. Qed.
End Frames.

(** ** Compliance and the goal register *)

(** C1: while the motor's compliant flag is true, assigning [goal_position]
    returns normally (the setter is a total function, it has no error
    outcome) and changes nothing: the whole state is the one before the
    write, so the actuator's target register and the value read back through
    [goal_position] are the ones before the write, and no static-error check
    is scheduled. *)
Theorem goal_write_while_compliant_is_noop
    {A : Type} `{PyNum A} (w : World A) (value : A) :
  compliant (self w) = true ->
  set_goal_position value w = w /\
  WsMotor.target_rot_position (_motor (self (set_goal_position value w)))
    = WsMotor.target_rot_position (_motor (self w)) /\
  goal_position (self (set_goal_position value w)) = goal_position (self w) /\
  timers (set_goal_position value w) = timers w.
Proof.
  intros Hc. rewrite (set_goal_position_compliant value w Hc). auto.
Qed.

Lemma goal_write_while_compliant_is_noop_witness :
  let w := set_compliant true left_antenna_world in
  compliant (self w) = true /\
  set_goal_position 45%float w = w /\
  goal_position (self (set_goal_position 45%float w))
    = goal_position (self left_antenna_world).
Proof.
  split; [reflexivity |].
  destruct (goal_write_while_compliant_is_noop
              (set_compliant true left_antenna_world) 45%float eq_refl)
    as (Hw & _ & Hg & _).
  split; [exact Hw | exact Hg].
Defined.

(** C9: assigning [compliant] stores the value in the actuator's
    [compliant] attribute and touches nothing else: offset, orientation, the
    actuator's target and present position (hence both logical positions),
    the other actuator attributes, the static-fix switch, the pending timer,
    the timers, the log and the players are the same afterwards, for either
    boolean. *)
Theorem set_compliant_only_writes_compliant
    {A : Type} `{PyNum A} (w : World A) (value : bool) :
  let w' := set_compliant value w in
  compliant (self w') = value /\
  offset (self w') = offset (self w) /\
  is_direct (self w') = is_direct (self w) /\
  WsMotor.target_rot_position (_motor (self w'))
    = WsMotor.target_rot_position (_motor (self w)) /\
  WsMotor.rot_position (_motor (self w'))
    = WsMotor.rot_position (_motor (self w)) /\
  goal_position (self w') = goal_position (self w) /\
  present_position (self w') = present_position (self w) /\
  _motor (self w') = WsMotor.set_compliant value (_motor (self w)) /\
  _timer (self w') = _timer (self w) /\
  _use_static_fix (self w') = _use_static_fix (self w) /\
  timers w' = timers w /\ log w' = log w /\
  player_calls w' = player_calls w.
Proof. cbv zeta. repeat split. Qed.

(** ** The two frames *)

(** C3: the logical position read through [present_position] (from the
    actuator's [rot_position]) and through [goal_position] (from its
    [target_rot_position]) is the raw angle, negated unless the configured
    orientation is ['direct'], minus the configured offset.  With offset 26.0
    and orientation direct, a raw position of 30.0 reads as 4.0. *)
Theorem logical_position_is_oriented_raw_minus_offset
    {A : Type} `{PyNum A}
    (root_part name : string) (luos_motor : WsMotor.t A) (cfg : config A) :
  let d := __init__ root_part name luos_motor cfg in
  let oriented (raw : A) :=
    if String.eqb (cfg_orientation cfg) "direct" then raw else pneg raw in
  present_position d
    = psub (oriented (WsMotor.rot_position luos_motor)) (cfg_offset cfg) /\
  goal_position d
    = psub (oriented (WsMotor.target_rot_position luos_motor))
        (cfg_offset cfg) /\
  present_position
    (__init__ "head" "left_antenna"
       (WsMotor.set_rot_position 30%float
          (find_dxl "head" "left_antenna" left_antenna)) left_antenna)
    = 4%float.
Proof.
  cbv zeta. split; [| split].
  - unfold present_position, _as_local_pos, is_direct, offset. reflexivity.
  - unfold goal_position, _as_local_pos, is_direct, offset. reflexivity.
  - vm_compute. reflexivity.
Qed.

(** *** The exact instance *)

Lemma Qc_pint_1 : pint 1 = 1%Qc.
Proof. apply Qc_is_canon. reflexivity. Qed.

Lemma Qc_pint_m1 : pint (-1) = (- 1)%Qc.
Proof. apply Qc_is_canon. reflexivity. Qed.

Lemma Qc_pint_0 : pint 0 = 0%Qc.
Proof. apply Qc_is_canon. reflexivity. Qed.

Lemma Qc_ltb_lt (x y : Qc) : Qc_ltb x y = true <-> (x < y)%Qc.
Proof.
  unfold Qc_ltb, Qclt. rewrite negb_true_iff, <- not_true_iff_false.
  rewrite Qle_bool_iff. split.
  - apply Qnot_le_lt.
  - apply Qlt_not_le.
Qed.

Lemma Qc_ltb_irrefl (x : Qc) : Qc_ltb x x = false.
Proof.
  apply not_true_iff_false. rewrite Qc_ltb_lt. apply Qlt_irrefl.
Qed.

Lemma Qc_ltb_asym (x y : Qc) : (x < y)%Qc -> Qc_ltb y x = false.
Proof.
  intros Hlt. apply not_true_iff_false. rewrite Qc_ltb_lt.
  intros Hyx. exact (Qlt_irrefl _ (Qclt_trans _ _ _ Hlt Hyx)).
Qed.

(** C4 (as stated, on floats): with the left antenna's configuration
    (offset 26.0, direct) the raw angle 0.1 comes back from the two
    conversions as 0.10000000000000142, and the raw angle [2^-60] comes back
    as 0.0: Python's [==] answers [False] for both. *)
Lemma round_trip_is_not_exact_in_binary64 :
  let d := self left_antenna_world in
  _to_motor_pos d (_as_local_pos d 0.1%float) = 0.10000000000000142%float /\
  peqb (_to_motor_pos d (_as_local_pos d 0.1%float)) 0.1%float = false /\
  peqb (_to_motor_pos d (_as_local_pos d 0x1p-60%float)) 0x1p-60%float
    = false.
Proof. vm_compute. repeat split. Qed.

(** On floats the round trip is exact for the values the notebooks write:
    every whole number of degrees from -360 to 360, under each of the
    configured offsets and orientations. *)
Example round_trip_exact_on_whole_degrees_binary64 :
  forallb
    (fun cfg =>
       let d := __init__ "part" "joint" (find_dxl "part" "joint" cfg) cfg in
       forallb (fun x => peqb (_to_motor_pos d (_as_local_pos d x)) x)
         (whole_degrees (-360) 721))
    notebook_configs
  = true.
Proof. vm_compute. reflexivity. Qed.

(** C4 (amended): in exact arithmetic, for every raw angle, every offset and
    both orientations, converting to the logical frame and back is the
    identity. *)
Theorem round_trip_is_identity_in_exact_arithmetic (d : t Qc) (x : Qc) :
  _to_motor_pos d (_as_local_pos d x) = x /\
  peqb (_to_motor_pos d (_as_local_pos d x)) x = true.
Proof.
  assert (E : _to_motor_pos d (_as_local_pos d x) = x).
  { unfold _to_motor_pos, _as_local_pos, is_direct, offset.
    destruct (_direct d).
    - rewrite Qc_pint_1. cbn [padd psub pmul Qc_PyNum]. ring.
    - rewrite Qc_pint_m1. cbn [padd psub pmul pneg Qc_PyNum]. ring. }
  split; [exact E |].
  rewrite E. cbn [peqb Qc_PyNum]. unfold Qc_eq_bool.
  destruct (Qcanon.Qc_eq_dec x x); congruence.
Qed.

(** ** Trajectories *)

(** C8: over exact numbers, linear interpolation
    [start + (end - start) * (t / duration)] with [t] clamped to
    [[0, duration]] starts at [start] and arrives at [end] whenever the
    duration is positive, clamps the times outside the interval to those two
    values, and the trajectory from 0 to 150 in 0.5 s is at 75 after
    0.25 s, also when the player comes from a linear [goto] to 150 on a
    motor that rests at its logical zero. *)
Theorem linear_interpolation_endpoints (start end_ d : Qc) :
  (0 < d)%Qc ->
  Trajectory.linear_position start end_ d 0%Qc = start /\
  Trajectory.linear_position start end_ d d = end_ /\
  Trajectory.linear_position start end_ d (0 - d)%Qc = start /\
  Trajectory.linear_position start end_ d (d + d)%Qc = end_ /\
  Trajectory.linear_position 0%Qc (Q2Qc 150) (Q2Qc (1 # 2)) (Q2Qc (1 # 4))
    = Q2Qc 75 /\
  match fst (goto Trajectory.interpolation_modes (Q2Qc 150) (Q2Qc (1 # 2))
               "present_position" false "linear"
               (attach_dxl_motor "head" "left_antenna" left_antenna_exact))
  with
  | Ok p => Trajectory.position p (Q2Qc (1 # 4)) = Some (Q2Qc 75)
  | Raise _ => False
  end.
Proof.
  intros Hd.
  assert (Hne : d <> 0%Qc).
  { intros ->. exact (Qlt_irrefl _ Hd). }
  assert (Hneg : (0 - d < 0)%Qc).
  { apply Qclt_minus_iff. replace (0 + - (0 - d))%Qc with d by ring. exact Hd. }
  assert (Hbig : (d < d + d)%Qc).
  { apply Qclt_minus_iff. replace (d + d + - d)%Qc with d by ring. exact Hd. }
  unfold Trajectory.linear_position, Trajectory.clamp.
  rewrite Qc_pint_0. cbn [padd psub pmul ptruediv pltb Qc_PyNum].
  rewrite Qc_ltb_irrefl, (Qc_ltb_asym _ _ Hd), Qc_ltb_irrefl.
  rewrite (proj2 (Qc_ltb_lt _ _) Hneg), (proj2 (Qc_ltb_lt _ _) Hbig).
  rewrite (Qc_ltb_asym 0%Qc (d + d)%Qc) by (exact (Qclt_trans _ _ _ Hd Hbig)).
  split; [| split; [| split; [| split; [| split]]]].
  - field. exact Hne.
  - field. exact Hne.
  - field. exact Hne.
  - field. exact Hne.
  - apply Qc_is_canon. vm_compute. reflexivity.
  - vm_compute. reflexivity.
Qed.

Lemma linear_interpolation_endpoints_witness :
  (0 < Q2Qc (1 # 2))%Qc /\
  Trajectory.linear_position 0%Qc (Q2Qc 150) (Q2Qc (1 # 2)) 0%Qc = 0%Qc /\
  Trajectory.linear_position 0%Qc (Q2Qc 150) (Q2Qc (1 # 2)) (Q2Qc (1 # 2))
    = Q2Qc 150.
Proof.
  assert (Hd : (0 < Q2Qc (1 # 2))%Qc) by reflexivity.
  split; [exact Hd |].
  destruct (linear_interpolation_endpoints 0%Qc (Q2Qc 150) (Q2Qc (1 # 2)) Hd)
    as (H0 & H1 & _).
  split; [exact H0 | exact H1].
Defined.

(** The sampled value of the example is the same on floats. *)
Example linear_interpolation_example_binary64 :
  Trajectory.linear_position 0%float 150%float 0.5%float 0.25%float
  = 75%float.
Proof. vm_compute. reflexivity. Qed.

(** ** goto *)

Section Goto.
Context {A : Type} `{PyNum A}.

(** The guard of [goto], for any table: a mode that is not a key raises
    [ValueError] naming the keys, before anything else is evaluated. *)
Lemma goto_unknown_mode
    (modes : list (string * (pyval A -> A -> A
                             -> result (Trajectory.player A))))
    (goal duration : A) (starting_point : string) (wait : bool)
    (mode : string) (w : World A) :
  assoc mode modes = None ->
  goto modes goal duration starting_point wait mode w
  = (Raise (ValueError ("interpolation_mode should be one of "
                          ++ repr_tuple (map fst modes))), w).
Proof. intros Hm. unfold goto. rewrite Hm. reflexivity. Qed.

(** Past the guard [goto] adds no test of its own: what the table's
    constructor returns for [(start, goal, duration)] is started, waited for
    on request, and returned. *)
Lemma goto_starts_constructed_player
    (modes : list (string * (pyval A -> A -> A
                             -> result (Trajectory.player A))))
    (goal duration : A) (starting_point : string) (wait : bool)
    (mode : string) (w : World A)
    (cls : pyval A -> A -> A -> result (Trajectory.player A))
    (p : pyval A) (traj_player : Trajectory.player A) :
  assoc mode modes = Some cls ->
  getattr (self w) starting_point = Ok p ->
  cls p goal duration = Ok traj_player ->
  goto modes goal duration starting_point wait mode w
  = (Ok traj_player,
     with_player_calls
       (player_calls w ++ Trajectory.Start traj_player
          :: (if wait then [Trajectory.Wait traj_player] else [])) w).
Proof.
  intros Hm Hp Hc. unfold goto. rewrite Hm, Hp, Hc.
  destruct wait; cbn; [rewrite <- app_assoc |]; reflexivity.
Qed.

(** Whatever [goto] does, it assigns no register of the motor itself and
    touches no timer: only a started player writes positions. *)
Lemma goto_keeps_motor
    (modes : list (string * (pyval A -> A -> A
                             -> result (Trajectory.player A))))
    (goal duration : A) (starting_point : string) (wait : bool)
    (mode : string) (w : World A) :
  let w' := snd (goto modes goal duration starting_point wait mode w) in
  self w' = self w /\ timers w' = timers w /\ log w' = log w.
Proof.
  unfold goto.
  destruct (assoc mode modes) as [cls |]; [| auto].
  destruct (getattr (self w) starting_point) as [p | e]; [| auto].
  destruct (cls p goal duration) as [pl | e]; [| auto].
  destruct wait; auto.
Qed.
End Goto.

(** C7: an [interpolation_mode] other than ['linear'] and ['minjerk'] makes
    [goto] raise [ValueError] (listing the two known modes) at its first
    statement: no player is constructed or started and the state is the one
    before the call. *)
Theorem goto_unknown_interpolation_mode_raises
    {A : Type} `{PyNum A}
    (goal duration : A) (starting_point : string) (wait : bool)
    (mode : string) (w : World A) :
  mode <> "linear" -> mode <> "minjerk" ->
  goto Trajectory.interpolation_modes goal duration starting_point wait mode w
  = (Raise (ValueError
       "interpolation_mode should be one of ('linear', 'minjerk')"), w).
Proof.
  intros Hl Hm.
  rewrite goto_unknown_mode; [reflexivity |].
  unfold Trajectory.interpolation_modes, assoc.
  apply String.eqb_neq in Hl, Hm. rewrite Hl, Hm. reflexivity.
Qed.

Lemma goto_unknown_interpolation_mode_raises_witness :
  "cubic" <> "linear" /\ "cubic" <> "minjerk" /\
  goto Trajectory.interpolation_modes 45%float 0.5%float "present_position"
    true "cubic" left_antenna_world
  = (Raise (ValueError
       "interpolation_mode should be one of ('linear', 'minjerk')"),
     left_antenna_world).
Proof.
  assert (Hl : "cubic" <> "linear") by discriminate.
  assert (Hm : "cubic" <> "minjerk") by discriminate.
  split; [exact Hl |]. split; [exact Hm |].
  exact (goto_unknown_interpolation_mode_raises 45%float 0.5%float
           "present_position" true "cubic" left_antenna_world Hl Hm).
Defined.

(** C2: a [goto] with [duration <= 0] ends in an exception raised during the
    call itself, at the latest by the construction of the player: no player
    is returned, none is started or waited for, and the state after the call
    (registers of the actuator, timers, log) is the state before it, so no
    position is written on its behalf. *)
Theorem goto_nonpositive_duration_is_rejected
    {A : Type} `{PyNum A}
    (goal duration : A) (starting_point : string) (wait : bool)
    (mode : string) (w : World A) :
  pleb duration (pint 0) = true ->
  exists e : exn,
    goto Trajectory.interpolation_modes goal duration starting_point wait
      mode w = (Raise e, w).
Proof.
  intros Hd. unfold goto.
  destruct (assoc mode Trajectory.interpolation_modes) as [cls |] eqn:Hm;
    [| eexists; reflexivity].
  destruct (getattr (self w) starting_point) as [p | e];
    [| eexists; reflexivity].
  assert (Hcls : exists e, cls p goal duration = Raise e).
  { unfold Trajectory.interpolation_modes, assoc in Hm.
    destruct (String.eqb mode "linear");
      [| destruct (String.eqb mode "minjerk"); [| discriminate]];
      injection Hm as <-; unfold Trajectory.new_player; rewrite Hd;
      eexists; reflexivity. }
  destruct Hcls as [e ->]. eexists; reflexivity.
Qed.

Lemma goto_nonpositive_duration_is_rejected_witness :
  pleb 0%float (pint 0) = true /\
  exists e : exn,
    goto Trajectory.interpolation_modes 45%float 0%float "present_position"
      false "linear" left_antenna_world = (Raise e, left_antenna_world).
Proof.
  assert (Hd : pleb 0%float (pint 0) = true) by reflexivity.
  split; [exact Hd |].
  exact (goto_nonpositive_duration_is_rejected 45%float 0%float
           "present_position" false "linear" left_antenna_world Hd).
Defined.

(** ** Counting pending timers *)

Section TimerStore.
Implicit Types (l : list Timer.t) (i : nat) (x : Timer.t).

Lemma is_waiting_iff x :
  Timer.is_waiting x = true <-> Timer.st x = Timer.Waiting.
Proof.
  unfold Timer.is_waiting. destruct (Timer.st x); split; congruence.
Qed.

Lemma cancel_not_waiting x : Timer.st (Timer.cancel x) <> Timer.Waiting.
Proof. destruct x as [iv []]; cbn; congruence. Qed.

Lemma pending_cons x l :
  Timer.pending (x :: l)
  = (if Timer.is_waiting x then 1 else 0) + Timer.pending l.
Proof.
  unfold Timer.pending. cbn [List.filter].
  destruct (Timer.is_waiting x); reflexivity.
Qed.

Lemma pending_snoc l x :
  Timer.pending (l ++ [x])%list
  = Timer.pending l + (if Timer.is_waiting x then 1 else 0).
Proof.
  unfold Timer.pending. rewrite List.filter_app, List.length_app.
  cbn [List.filter]. destruct (Timer.is_waiting x); reflexivity.
Qed.

Lemma pending_none l :
  (forall i x, l !! i = Some x -> Timer.st x <> Timer.Waiting) ->
  Timer.pending l = 0.
Proof.
  induction l as [| a l IH]; intros Hl; [reflexivity |].
  rewrite pending_cons.
  rewrite IH by (intros i x Hi; exact (Hl (S i) x Hi)).
  destruct (Timer.is_waiting a) eqn:Ha; [| reflexivity].
  apply is_waiting_iff in Ha. exfalso. exact (Hl 0 a eq_refl Ha).
Qed.

(** If every waiting timer sits at the one index [r] names, at most one
    timer waits. *)
Lemma pending_tracked_from (k : nat) (r : option nat) l :
  (forall i x, l !! i = Some x -> Timer.st x = Timer.Waiting ->
               r = Some (k + i)) ->
  Timer.pending l <= 1.
Proof.
  revert k. induction l as [| a l IH]; intros k Hl.
  - unfold Timer.pending. cbn. lia.
  - rewrite pending_cons. destruct (Timer.is_waiting a) eqn:Ha.
    + apply is_waiting_iff in Ha.
      pose proof (Hl 0 a eq_refl Ha) as Hr.
      rewrite pending_none; [lia |].
      intros i x Hi Hx. pose proof (Hl (S i) x Hi Hx) as Hr'.
      rewrite Hr in Hr'. injection Hr' as Hr'. lia.
    + cbn. apply (IH (S k)). intros i x Hi Hx.
      rewrite (Hl (S i) x Hi Hx). f_equal. lia.
Qed.

Lemma pending_alter_cancel i l :
  Timer.pending (alter Timer.cancel i l) <= Timer.pending l.
Proof.
  revert i. induction l as [| a l IH]; intros [| i];
    cbn [alter list_alter]; try lia.
  - rewrite !pending_cons. destruct a as [iv []]; cbn; lia.
  - rewrite !pending_cons. fold (alter Timer.cancel i l).
    specialize (IH i). lia.
Qed.

Lemma pending_alter_leave i l x (s : Timer.state) :
  l !! i = Some x -> Timer.st x = Timer.Waiting -> s <> Timer.Waiting ->
  S (Timer.pending (alter (Timer.with_state s) i l)) = Timer.pending l.
Proof.
  intros Hi Hx Hs. revert i Hi.
  induction l as [| a l IH]; intros [| i] Hi; try discriminate.
  - injection Hi as ->. cbn [alter list_alter]. rewrite !pending_cons.
    destruct x as [iv st0]; cbn in Hx; subst st0.
    destruct s; cbn; congruence.
  - cbn [alter list_alter]. rewrite !pending_cons.
    fold (alter (Timer.with_state s) i l).
    rewrite <- (IH i Hi). lia.
Qed.

Lemma pending_alter_keep i l (s : Timer.state) :
  s <> Timer.Waiting ->
  Timer.pending (alter (Timer.with_state s) i l) <= Timer.pending l.
Proof.
  intros Hs. revert i.
  induction l as [| a l IH]; intros [| i]; cbn [alter list_alter];
    try lia.
  - rewrite !pending_cons. destruct a as [iv []], s; cbn; try lia;
      congruence.
  - rewrite !pending_cons. fold (alter (Timer.with_state s) i l).
    specialize (IH i). lia.
Qed.

Lemma alter_start_new l (delay : Z) :
  alter Timer.start (length l)
    (l ++ [ {| Timer.interval := delay; Timer.st := Timer.Created |} ])%list
  = (l ++ [ {| Timer.interval := delay;
               Timer.st := Timer.Waiting |} ])%list.
Proof.
  induction l as [| a l IH]; [reflexivity |].
  cbn [length app alter list_alter].
  fold (alter Timer.start (length l)
          (l ++ [ {| Timer.interval := delay;
                     Timer.st := Timer.Created |} ])%list).
  rewrite IH. reflexivity.
Qed.
End TimerStore.

(** ** Scheduling the static-error check *)

Section Scheduling.
Context {A : Type} `{PyNum A}.
Implicit Types (w : World A) (i : nat).

(** What [_schedule_static_error_fix] leaves behind: the old store with
    the timer [self._timer] named cancelled, one new waiting timer at its
    end, and [self._timer] naming that new timer. *)
Lemma schedule_timers (delay : Z) w :
  timers (_schedule_static_error_fix delay w)
  = (match _timer (self w) with
     | Some i => alter Timer.cancel i (timers w)
     | None => timers w
     end ++ [ {| Timer.interval := delay;
                 Timer.st := Timer.Waiting |} ])%list.
Proof.
  unfold _schedule_static_error_fix.
  destruct (_timer (self w)) as [j |]; cbn; apply alter_start_new.
Qed.

Lemma schedule_timer_ref (delay : Z) w :
  _timer (self (_schedule_static_error_fix delay w))
  = Some (length (timers w)).
Proof.
  unfold _schedule_static_error_fix.
  destruct (_timer (self w)) as [j |]; cbn; [| reflexivity].
  rewrite length_alter. reflexivity.
Qed.

Lemma schedule_log (delay : Z) w :
  log (_schedule_static_error_fix delay w) = log w.
Proof.
  unfold _schedule_static_error_fix.
  destruct (_timer (self w)); reflexivity.
Qed.

Lemma schedule_pending (delay : Z) w :
  Timer.pending (timers (_schedule_static_error_fix delay w))
  <= S (Timer.pending (timers w)).
Proof.
  rewrite schedule_timers, pending_snoc. cbn.
  destruct (_timer (self w)) as [j |]; [| lia].
  pose proof (pending_alter_cancel j (timers w)). lia.
Qed.

Lemma timer_state_waiting i w :
  timer_state i w = Some Timer.Waiting ->
  exists x, timers w !! i = Some x /\ Timer.st x = Timer.Waiting.
Proof.
  unfold timer_state. destruct (timers w !! i) as [x |]; cbn; [| discriminate].
  intros [= Hx]. exists x. auto.
Qed.

(** *** The reference [self._timer] follows the pending timer *)

Lemma tracked_frame w w' :
  timers w' = timers w -> _timer (self w') = _timer (self w) ->
  timers_tracked w -> timers_tracked w'.
Proof.
  intros Ht Hr Hw i x. rewrite Ht, Hr. apply Hw.
Qed.

Lemma tracked_schedule (delay : Z) w :
  timers_tracked w -> timers_tracked (_schedule_static_error_fix delay w).
Proof.
  intros Hw i x Hi Hx.
  rewrite schedule_timer_ref. rewrite schedule_timers in Hi.
  apply lookup_snoc_Some in Hi as [[Hlt Hi] | [-> _]].
  - exfalso. destruct (_timer (self w)) as [j |] eqn:Hj.
    + destruct (decide (j = i)) as [-> | Hne].
      * rewrite list_lookup_alter_eq in Hi.
        destruct (timers w !! i) as [y |]; [| discriminate].
        injection Hi as <-. exact (cancel_not_waiting y Hx).
      * rewrite list_lookup_alter_ne in Hi by exact Hne.
        pose proof (Hw i x Hi Hx) as Hr. congruence.
    + pose proof (Hw i x Hi Hx) as Hr. congruence.
  - destruct (_timer (self w)); [rewrite length_alter |]; reflexivity.
Qed.

Lemma tracked_set_goal (value : A) w :
  timers_tracked w -> timers_tracked (set_goal_position value w).
Proof.
  intros Hw. unfold set_goal_position.
  destruct (negb (compliant (self w))); [| exact Hw].
  assert (Hw1 : timers_tracked
                  (write_target (_to_motor_pos (self w) value) w))
    by (apply (tracked_frame w); [reflexivity | reflexivity | exact Hw]).
  destruct (_use_static_fix _); [| exact Hw1].
  apply tracked_schedule. exact Hw1.
Qed.

Lemma tracked_timer_run i w :
  timers_tracked w -> timers_tracked (step (TimerRun i) w).
Proof.
  intros Hw. cbn [step].
  destruct (timer_state i w) as [[] |] eqn:Hs; try exact Hw.
  apply timer_state_waiting in Hs as (x0 & Hi0 & Hx0).
  intros j x Hj Hx. exfalso.
  unfold set_timer_state in Hj. cbn [timers with_timers] in Hj.
  rewrite timers_fix_static_error in Hj. cbn [timers with_timers] in Hj.
  destruct (decide (i = j)) as [-> | Hne].
  - rewrite list_lookup_alter_eq in Hj.
    destruct (alter _ j (timers w) !! j) as [y |]; [| discriminate].
    injection Hj as <-. cbn in Hx. discriminate.
  - rewrite !list_lookup_alter_ne in Hj by exact Hne.
    pose proof (Hw j x Hj Hx) as Hr1. pose proof (Hw i x0 Hi0 Hx0) as Hr2.
    congruence.
Qed.

Lemma tracked_step (e : event) w :
  atomic e = true -> timers_tracked w -> timers_tracked (step e w).
Proof.
  intros He Hw.
  destruct e as [v | b | v | v | b | g d sp wt m | p | i | i | i];
    try discriminate.
  - apply tracked_set_goal. exact Hw.
  - exact (tracked_frame w _ eq_refl eq_refl Hw).
  - exact (tracked_frame w _ eq_refl eq_refl Hw).
  - exact (tracked_frame w _ eq_refl eq_refl Hw).
  - exact (tracked_frame w _ eq_refl eq_refl Hw).
  - cbn [step].
    destruct (goto_keeps_motor Trajectory.interpolation_modes g d sp wt m w)
      as (Hs & Ht & _).
    apply (tracked_frame w); [exact Ht | rewrite Hs; reflexivity | exact Hw].
  - exact (tracked_frame w _ eq_refl eq_refl Hw).
  - apply tracked_timer_run. exact Hw.
Qed.

Lemma tracked_run (es : list event) w :
  forallb atomic es = true -> timers_tracked w ->
  timers_tracked (run es w).
Proof.
  revert w. induction es as [| e es IH]; intros w Hes Hw; [exact Hw |].
  cbn in Hes. apply andb_true_iff in Hes as [He Hes].
  cbn. apply IH; [exact Hes |]. apply tracked_step; assumption.
Qed.

Lemma tracked_attach (part_name motor_name : string) (cfg : config A) :
  timers_tracked (attach_dxl_motor part_name motor_name cfg).
Proof. intros i x Hi. discriminate. Qed.

Lemma tracked_pending w :
  timers_tracked w -> length (live_timers w) <= 1.
Proof.
  intros Hw. apply (pending_tracked_from 0 (_timer (self w))). exact Hw.
Qed.
End Scheduling.

(** ** Corrections never outnumber goal writes *)

Section Budget.
Context {A : Type} `{PyNum A}.
Implicit Types (w : World A) (i : nat).

Lemma corrections_fix_static_error (threshold : A) w :
  corrections (_fix_static_error threshold w) <= S (corrections w).
Proof.
  unfold corrections, _fix_static_error.
  destruct (pgtb _ threshold); cbn; [rewrite length_app; cbn |]; lia.
Qed.

Lemma fix_static_error_head_frame (threshold : A) w :
  let '(entered, w1) := _fix_static_error_head threshold w in
  timers w1 = timers w /\ corrections w1 <= S (corrections w) /\
  _timer (self w1) = _timer (self w).
Proof.
  unfold corrections, _fix_static_error_head.
  destruct (pgtb _ threshold); cbn; [rewrite length_app; cbn |];
    repeat split; lia.
Qed.

(** One step spends at most one unit, and only a goal write earns one:
    corrections carried out plus corrections still pending. *)
Lemma step_budget (e : event) w :
  corrections (step e w) + Timer.pending (timers (step e w))
  <= corrections w + Timer.pending (timers w)
     + (if is_goal_write e then 1 else 0).
Proof.
  destruct e as [v | b | v | v | b | g d sp wt m | p | i | i | i];
    cbn [is_goal_write];
    try (change (corrections w + Timer.pending (timers w)
                 <= corrections w + Timer.pending (timers w) + 0); lia).
  - cbn [step]. unfold set_goal_position.
    destruct (negb (compliant (self w))); [| lia].
    pose proof (schedule_pending 1
                  (write_target (_to_motor_pos (self w) v) w)) as Hp.
    destruct (_use_static_fix _).
    + unfold corrections. rewrite schedule_log.
      change (timers (write_target (_to_motor_pos (self w) v) w))
        with (timers w) in Hp.
      change (log (write_target (_to_motor_pos (self w) v) w))
        with (log w).
      lia.
    + change (corrections w + Timer.pending (timers w)
              <= corrections w + Timer.pending (timers w) + 1). lia.
  - cbn [step].
    destruct (goto_keeps_motor Trajectory.interpolation_modes g d sp wt m w)
      as (_ & Ht & Hl).
    unfold corrections. rewrite Ht, Hl. lia.
  - cbn [step].
    destruct (timer_state i w) as [[] |] eqn:Hs; try lia.
    apply timer_state_waiting in Hs as (x & Hi & Hx).
    pose proof (corrections_fix_static_error (pint 2)
                  (set_timer_state i Timer.Running w)) as Hc.
    unfold corrections in *.
    rewrite log_set_timer_state in *.
    rewrite timers_set_timer_state, timers_fix_static_error,
      timers_set_timer_state.
    pose proof (pending_alter_leave i (timers w) x Timer.Running Hi Hx
                  ltac:(discriminate)) as Hr.
    pose proof (pending_alter_keep i
                  (alter (Timer.with_state Timer.Running) i (timers w))
                  Timer.Finished ltac:(discriminate)) as Hf.
    lia.
  - cbn [step].
    destruct (timer_state i w) as [[] |] eqn:Hs; try lia.
    apply timer_state_waiting in Hs as (x & Hi & Hx).
    pose proof (fix_static_error_head_frame (pint 2)
                  (set_timer_state i Timer.Running w)) as Hh.
    destruct (_fix_static_error_head (pint 2)
                (set_timer_state i Timer.Running w)) as [entered w1].
    destruct Hh as (Ht & Hc & _).
    pose proof (pending_alter_leave i (timers w) x Timer.Running Hi Hx
                  ltac:(discriminate)) as Hr.
    unfold corrections in *.
    rewrite log_set_timer_state in Hc.
    rewrite timers_set_timer_state in Ht.
    destruct entered.
    + rewrite Ht. lia.
    + rewrite log_set_timer_state, timers_set_timer_state, Ht.
      pose proof (pending_alter_keep i
                    (alter (Timer.with_state Timer.Running) i (timers w))
                    Timer.Finished ltac:(discriminate)) as Hf.
      lia.
  - cbn [step].
    destruct (timer_state i w) as [[] |] eqn:Hs; try lia.
    unfold corrections.
    rewrite log_set_timer_state, timers_set_timer_state.
    change (log (_fix_static_error_tail w)) with (log w).
    change (timers (_fix_static_error_tail w)) with (timers w).
    pose proof (pending_alter_keep i (timers w) Timer.Finished
                  ltac:(discriminate)) as Hf.
    lia.
Qed.

Lemma run_budget (es : list event) w :
  corrections (run es w) + Timer.pending (timers (run es w))
  <= corrections w + Timer.pending (timers w) + goal_writes es.
Proof.
  revert w. induction es as [| e es IH]; intros w.
  - cbn. unfold goal_writes. cbn. lia.
  - cbn [run fold_left]. fold (run es (step e w)).
    specialize (IH (step e w)). pose proof (step_budget e w) as Hs.
    unfold goal_writes in *. cbn [List.filter].
    destruct (is_goal_write e); cbn [length] in *; lia.
Qed.

(** A timer that has run does not run again. *)
Lemma timer_run_once i w :
  step (TimerRun i) (step (TimerRun i) w) = step (TimerRun i) w.
Proof.
  cbn [step].
  destruct (timer_state i w) as [s |] eqn:Hs.
  2: { rewrite Hs. reflexivity. }
  destruct s; try (rewrite Hs; reflexivity).
  apply timer_state_waiting in Hs as (x & Hi & Hx).
  match goal with
  | |- match timer_state i ?w2 with _ => _ end = _ =>
      assert (Hf : timer_state i w2 = Some Timer.Finished)
  end.
  { unfold timer_state, set_timer_state. cbn [timers with_timers].
    rewrite timers_fix_static_error. cbn [timers with_timers].
    rewrite !list_lookup_alter_eq, Hi. reflexivity. }
  rewrite Hf. reflexivity.
Qed.
End Budget.

(** ** Timers that are over stay over *)

Section TimersOver.
Context {A : Type} `{PyNum A}.
Implicit Types (w : World A) (i : nat).

Lemma timer_state_frame w w' i :
  timers w' = timers w -> timer_state i w' = timer_state i w.
Proof. unfold timer_state. intros ->. reflexivity. Qed.

Lemma timer_state_set_other i j (s : Timer.state) w :
  i <> j -> timer_state i (set_timer_state j s w) = timer_state i w.
Proof.
  intros Hne. unfold timer_state, set_timer_state. cbn [timers with_timers].
  rewrite list_lookup_alter_ne by congruence. reflexivity.
Qed.

Lemma timer_state_schedule (delay : Z) w i (s : Timer.state) :
  s = Timer.Cancelled \/ s = Timer.Finished ->
  timer_state i w = Some s ->
  timer_state i (_schedule_static_error_fix delay w) = Some s.
Proof.
  intros Hs Hi. unfold timer_state in *.
  destruct (timers w !! i) as [x |] eqn:Hx; [| discriminate].
  cbn in Hi. injection Hi as Hi.
  rewrite schedule_timers.
  assert (Hlt : i < length (timers w)) by (eapply lookup_lt_Some; eauto).
  rewrite lookup_app_l.
  2: { destruct (_timer (self w)); [rewrite length_alter |]; exact Hlt. }
  destruct (_timer (self w)) as [j |]; [| rewrite Hx; cbn; congruence].
  destruct (decide (j = i)) as [-> | Hne].
  - rewrite list_lookup_alter_eq, Hx. cbn. f_equal.
    destruct x as [iv st0]. cbn in Hi. subst st0.
    destruct Hs as [-> | ->]; reflexivity.
  - rewrite list_lookup_alter_ne by exact Hne. rewrite Hx. cbn. congruence.
Qed.

Lemma timer_over_step (e : event) w i (s : Timer.state) :
  s = Timer.Cancelled \/ s = Timer.Finished ->
  timer_state i w = Some s -> timer_state i (step e w) = Some s.
Proof.
  intros Hs Hi.
  assert (Hnw : s <> Timer.Waiting) by (destruct Hs; subst; discriminate).
  assert (Hnr : s <> Timer.Running) by (destruct Hs; subst; discriminate).
  destruct e as [v | b | v | v | b | g d sp wt m | p | j | j | j];
    try exact Hi.
  - cbn [step]. unfold set_goal_position.
    destruct (negb (compliant (self w))); [| exact Hi].
    destruct (_use_static_fix _); [| exact Hi].
    apply timer_state_schedule; assumption.
  - cbn [step].
    destruct (goto_keeps_motor Trajectory.interpolation_modes g d sp wt m w)
      as (_ & Ht & _).
    rewrite (timer_state_frame w _ i Ht). exact Hi.
  - cbn [step]. destruct (timer_state j w) as [[] |] eqn:Hj; try exact Hi.
    assert (Hne : i <> j) by (intros ->; congruence).
    rewrite timer_state_set_other by exact Hne.
    rewrite (timer_state_frame (set_timer_state j Timer.Running w) _ i
               (timers_fix_static_error _ _)).
    rewrite timer_state_set_other by exact Hne. exact Hi.
  - cbn [step]. destruct (timer_state j w) as [[] |] eqn:Hj; try exact Hi.
    assert (Hne : i <> j) by (intros ->; congruence).
    pose proof (fix_static_error_head_frame (pint 2)
                  (set_timer_state j Timer.Running w)) as Hh.
    destruct (_fix_static_error_head (pint 2)
                (set_timer_state j Timer.Running w)) as [entered w1].
    destruct Hh as (Ht & _ & _).
    destruct entered.
    + rewrite (timer_state_frame _ _ i Ht).
      rewrite timer_state_set_other by exact Hne. exact Hi.
    + rewrite timer_state_set_other by exact Hne.
      rewrite (timer_state_frame _ _ i Ht).
      rewrite timer_state_set_other by exact Hne. exact Hi.
  - cbn [step]. destruct (timer_state j w) as [[] |] eqn:Hj; try exact Hi.
    assert (Hne : i <> j) by (intros ->; congruence).
    rewrite timer_state_set_other by exact Hne. exact Hi.
Qed.

Lemma timer_over_run (es : list event) w i (s : Timer.state) :
  s = Timer.Cancelled \/ s = Timer.Finished ->
  timer_state i w = Some s -> timer_state i (run es w) = Some s.
Proof.
  intros Hs. revert w. induction es as [| e es IH]; intros w Hi; [exact Hi |].
  cbn. apply IH. apply timer_over_step; assumption.
Qed.
End TimersOver.

Lemma alter_finished_running (i : nat) (l : list Timer.t) :
  alter (Timer.with_state Timer.Finished) i
    (alter (Timer.with_state Timer.Running) i l)
  = alter (Timer.with_state Timer.Finished) i l.
Proof.
  revert i. induction l as [| x l IH]; intros [| i]; cbn; try reflexivity.
  f_equal. apply IH.
Qed.

(** ** The static-error check *)

(** C5: when the check runs with a residual [present - goal] whose absolute
    value exceeds the threshold, the actuator's target register then holds
    the raw-frame value [(fixed + offset) * (1 or -1)] of
    [fixed = goal + (present - goal) / 2]; one record is logged,
    [self._timer] is cleared, position and compliance are as before.  Within
    the threshold nothing at all changes.  The check creates, starts and
    cancels no timer.  The timer's thread calls it with the default
    threshold 2, and only if the timer still waits: the timer is finished
    afterwards, one pending check fewer is left, and whatever happens
    later that timer never runs the check again.  A goal write starts at
    most one timer.  After a goal write, in a state where every waiting
    timer is the one [self._timer] names, at most one correction is carried
    out before the next goal write; and in any run of a freshly attached
    motor the corrections never outnumber the goal writes. *)
Theorem static_error_check_corrects_once
    {A : Type} `{PyNum A} (threshold value : A) (w : World A) (i : nat)
    (part_name motor_name : string) (cfg : config A) (es : list event) :
  let present := present_position (self w) in
  let goal := goal_position (self w) in
  let error := psub present goal in
  let fixed := padd goal (ptruediv error (pint 2)) in
  let raw := pmul (padd fixed (_offset (self w)))
               (if _direct (self w) then pint 1 else pint (-1)) in
  let w1 := _fix_static_error threshold w in
  let w2 := step (TimerRun i) w in
  (pgtb (pabs error) threshold = true ->
   WsMotor.target_rot_position (_motor (self w1)) = raw /\
   log w1 = (log w ++ [ {| log_goal_position := goal;
                           log_present_position := present;
                           log_fixed_goal_position := fixed |} ])%list /\
   _timer (self w1) = None /\
   WsMotor.rot_position (_motor (self w1))
     = WsMotor.rot_position (_motor (self w)) /\
   compliant (self w1) = compliant (self w)) /\
  (pgtb (pabs error) threshold = false -> w1 = w) /\
  timers w1 = timers w /\
  (timer_state i w = Some Timer.Waiting ->
   (pgtb (pabs error) (pint 2) = true ->
    WsMotor.target_rot_position (_motor (self w2)) = raw /\
    corrections w2 = S (corrections w)) /\
   (pgtb (pabs error) (pint 2) = false ->
    self w2 = self w /\ log w2 = log w) /\
   timers w2 = alter (Timer.with_state Timer.Finished) i (timers w) /\
   S (length (live_timers w2)) = length (live_timers w) /\
   timer_state i (run es w2) = Some Timer.Finished /\
   step (TimerRun i) (run es w2) = run es w2 /\
   step (TimerRunHead i) (run es w2) = run es w2) /\
  (timer_state i w <> Some Timer.Waiting -> w2 = w) /\
  length (timers (step (SetGoal value) w)) <= S (length (timers w)) /\
  (timers_tracked w -> goal_writes es = 0 ->
   corrections (run es (step (SetGoal value) w)) <= S (corrections w)) /\
  corrections (run es (attach_dxl_motor part_name motor_name cfg))
    <= goal_writes es.
Proof.
  cbv zeta.
  split; [| split; [| split; [| split; [| split; [| split; [| split]]]]]].
  - intros Hgt. unfold _fix_static_error. rewrite Hgt.
    repeat split; reflexivity.
  - intros Hle. unfold _fix_static_error. rewrite Hle. reflexivity.
  - apply timers_fix_static_error.
  - intros Hs.
    assert (Ht : timers (step (TimerRun i) w)
                 = alter (Timer.with_state Timer.Finished) i (timers w)).
    { cbn [step]. rewrite Hs.
      rewrite timers_set_timer_state, timers_fix_static_error,
        timers_set_timer_state.
      apply alter_finished_running. }
    assert (Hf : timer_state i (run es (step (TimerRun i) w))
                 = Some Timer.Finished).
    { apply timer_over_run; [right; reflexivity |].
      unfold timer_state. rewrite Ht.
      apply timer_state_waiting in Hs as (x & Hx & _).
      rewrite list_lookup_alter_eq, Hx. reflexivity. }
    split; [| split; [| split; [| split; [| split; [| split]]]]].
    + intros Hgt. cbn [step]. rewrite Hs. unfold corrections.
      rewrite log_set_timer_state. unfold _fix_static_error.
      rewrite !self_set_timer_state, Hgt.
      split; [reflexivity |]. cbn. rewrite length_app. cbn. lia.
    + intros Hle. cbn [step]. rewrite Hs.
      rewrite log_set_timer_state. unfold _fix_static_error.
      rewrite !self_set_timer_state, Hle.
      split; reflexivity.
    + exact Ht.
    + unfold live_timers. rewrite Ht.
      apply timer_state_waiting in Hs as (x & Hx & Hw).
      exact (pending_alter_leave i (timers w) x Timer.Finished Hx Hw
               ltac:(discriminate)).
    + exact Hf.
    + set (w3 := run es (step (TimerRun i) w)) in *.
      cbn [step]. rewrite Hf. reflexivity.
    + set (w3 := run es (step (TimerRun i) w)) in *.
      cbn [step]. rewrite Hf. reflexivity.
  - intros Hs. cbn [step].
    destruct (timer_state i w) as [[] |]; try reflexivity. congruence.
  - cbn [step]. unfold set_goal_position.
    destruct (negb (compliant (self w))); [| lia].
    destruct (_use_static_fix _); [| cbn; lia].
    rewrite schedule_timers, length_app. cbn [timers write_target with_self].
    destruct (_timer _); rewrite ?length_alter; cbn [length]; lia.
  - intros Hw Hes.
    pose proof (run_budget es (step (SetGoal value) w)) as Hb.
    pose proof (tracked_pending _ (tracked_set_goal value w Hw)) as Hp.
    assert (Hc : corrections (step (SetGoal value) w) = corrections w).
    { cbn [step]. unfold corrections, set_goal_position.
      destruct (negb (compliant (self w))); [| reflexivity].
      destruct (_use_static_fix _); [| reflexivity].
      rewrite schedule_log. reflexivity. }
    unfold live_timers in Hp. fold (Timer.pending
      (timers (set_goal_position value w))) in Hp.
    cbn [step] in Hb, Hc |- *. lia.
  - pose proof (run_budget es (attach_dxl_motor part_name motor_name cfg))
      as Hb.
    change (corrections (attach_dxl_motor part_name motor_name cfg))
      with 0 in Hb.
    change (Timer.pending
              (timers (attach_dxl_motor part_name motor_name cfg)))
      with 0 in Hb.
    lia.
Qed.

Lemma static_error_check_corrects_once_witness :
  let w := run [ UseStaticErrorFix true; SetGoal 10%float ]
             left_antenna_world in
  let near := step (Sync 35%float) w in
  let later := [ Sync 20%float; TimerRun 0; SetCompliant true ] in
  timer_state 0 w = Some Timer.Waiting /\
  present_position (self w) = 0%float /\
  goal_position (self w) = 10%float /\
  WsMotor.target_rot_position (_motor (self w)) = 36%float /\
  WsMotor.target_rot_position (_motor (self (step (TimerRun 0) w)))
    = 31%float /\
  goal_position (self (step (TimerRun 0) w)) = 5%float /\
  corrections (step (TimerRun 0) w) = 1 /\
  step (TimerRun 0) (run later (step (TimerRun 0) w))
    = run later (step (TimerRun 0) w) /\
  present_position (self near) = 9%float /\
  WsMotor.target_rot_position (_motor (self (step (TimerRun 0) near)))
    = 36%float /\
  corrections (step (TimerRun 0) near) = 0 /\
  corrections (run later (step (SetGoal 12%float) w)) <= 1.
Proof.
  cbv zeta.
  pose proof (static_error_check_corrects_once
                (pint 2) 12%float
                (run [ UseStaticErrorFix true; SetGoal 10%float ]
                   left_antenna_world) 0
                "head" "left_antenna" left_antenna
                [ Sync 20%float; TimerRun 0; SetCompliant true ]) as Hfar.
  pose proof (static_error_check_corrects_once
                (pint 2) 12%float
                (step (Sync 35%float)
                   (run [ UseStaticErrorFix true; SetGoal 10%float ]
                      left_antenna_world)) 0
                "head" "left_antenna" left_antenna []) as Hnear.
  cbv zeta in Hfar, Hnear.
  destruct Hfar as (_ & _ & _ & Hfire & _ & _ & Honce & _).
  destruct (Hfire eq_refl) as (Hgt & _ & _ & _ & _ & Hagain & _).
  destruct Hgt as (Htarget & Hcount); [vm_compute; reflexivity |].
  destruct Hnear as (_ & _ & _ & Hfire' & _).
  destruct (Hfire' eq_refl) as (_ & Hle & _).
  destruct Hle as (Hself & Hlog); [vm_compute; reflexivity |].
  split; [reflexivity |].
  split; [vm_compute; reflexivity |].
  split; [vm_compute; reflexivity |].
  split; [vm_compute; reflexivity |].
  split; [rewrite Htarget; vm_compute; reflexivity |].
  split; [vm_compute; reflexivity |].
  split; [rewrite Hcount; reflexivity |].
  split; [exact Hagain |].
  split; [vm_compute; reflexivity |].
  split; [rewrite Hself; vm_compute; reflexivity |].
  split; [unfold corrections; rewrite Hlog; reflexivity |].
  apply Honce; [| reflexivity].
  apply (tracked_run [ UseStaticErrorFix true; SetGoal 10%float ]);
    [reflexivity | apply tracked_attach].
Defined.

(** C10: the compliance guard sits in the [goal_position] setter only.  When
    a waiting timer fires on a compliant motor whose residual exceeds the
    threshold, the corrected goal is stored in the actuator's target and the
    motor stays compliant, although assigning the same value to
    [goal_position] would have been dropped. *)
Theorem static_error_check_bypasses_compliance
    {A : Type} `{PyNum A} (w : World A) (i : nat) :
  let error := psub (present_position (self w)) (goal_position (self w)) in
  let fixed := padd (goal_position (self w)) (ptruediv error (pint 2)) in
  timer_state i w = Some Timer.Waiting ->
  compliant (self w) = true ->
  pgtb (pabs error) (pint 2) = true ->
  WsMotor.target_rot_position (_motor (self (step (TimerRun i) w)))
    = _to_motor_pos (self w) fixed /\
  compliant (self (step (TimerRun i) w)) = true /\
  set_goal_position fixed w = w.
Proof.
  cbv zeta. intros Hs Hc He.
  cbn [step]. rewrite Hs. unfold _fix_static_error.
  rewrite !self_set_timer_state. rewrite He.
  split; [reflexivity |]. split; [exact Hc |].
  apply set_goal_position_compliant. exact Hc.
Qed.

Lemma static_error_check_bypasses_compliance_witness :
  let w := run [ UseStaticErrorFix true; SetGoal 10%float;
                 SetCompliant true ] left_antenna_world in
  timer_state 0 w = Some Timer.Waiting /\
  compliant (self w) = true /\
  WsMotor.target_rot_position (_motor (self w)) = 36%float /\
  WsMotor.target_rot_position (_motor (self (step (TimerRun 0) w)))
    = 31%float.
Proof.
  cbv zeta.
  split; [reflexivity |]. split; [reflexivity |]. split; [reflexivity |].
  destruct (static_error_check_bypasses_compliance
              (run [ UseStaticErrorFix true; SetGoal 10%float;
                     SetCompliant true ] left_antenna_world) 0)
    as (Ht & _).
  - reflexivity.
  - reflexivity.
  - vm_compute. reflexivity.
  - rewrite Ht. vm_compute. reflexivity.
Defined.

(** ** One pending correction *)

Section OnePending.
Context {A : Type} `{PyNum A}.
Implicit Types (w : World A) (i : nat).

(** The cut of the setter is the setter: running the two pieces one after
    the other is [set_goal_position]. *)
Lemma set_goal_position_cut (value : A) w :
  set_goal_position value w
  = (let '(inside, w1) := set_goal_position_head value w in
     if inside then _schedule_static_error_fix_tail 1 w1 else w1).
Proof.
  unfold set_goal_position, set_goal_position_head.
  destruct (negb (compliant (self w))); [| reflexivity].
  destruct (_use_static_fix _); [| reflexivity].
  unfold _schedule_static_error_fix, _schedule_static_error_fix_tail.
  destruct (_timer _); reflexivity.
Qed.

Lemma alter_cancel_twice i (l : list Timer.t) :
  alter Timer.cancel i (alter Timer.cancel i l) = alter Timer.cancel i l.
Proof.
  revert i. induction l as [| x l IH]; intros [| i]; cbn; try reflexivity.
  - destruct x as [iv []]; reflexivity.
  - f_equal. apply IH.
Qed.

(** Once the timer [self._timer] names is cancelled, no timer of a tracked
    store waits any more. *)
Lemma tracked_cancel_none w :
  timers_tracked w ->
  Timer.pending (match _timer (self w) with
                 | Some i => alter Timer.cancel i (timers w)
                 | None => timers w
                 end) = 0.
Proof.
  intros Hw. apply pending_none. intros i x Hi Hx.
  destruct (_timer (self w)) as [j |] eqn:Hj.
  - destruct (decide (j = i)) as [-> | Hne].
    + rewrite list_lookup_alter_eq in Hi.
      destruct (timers w !! i) as [y |]; [| discriminate].
      injection Hi as <-. exact (cancel_not_waiting y Hx).
    + rewrite list_lookup_alter_ne in Hi by exact Hne.
      pose proof (Hw i x Hi Hx) as Hr. congruence.
  - pose proof (Hw i x Hi Hx) as Hr. congruence.
Qed.

Lemma interleaved_goal_writes_timers (a b : A) w :
  compliant (self w) = false -> _use_static_fix (self w) = true ->
  timers (interleaved_goal_writes a b w)
  = (match _timer (self w) with
     | Some i => alter Timer.cancel i (timers w)
     | None => timers w
     end ++ [ {| Timer.interval := 1; Timer.st := Timer.Waiting |};
              {| Timer.interval := 1; Timer.st := Timer.Waiting |} ])%list.
Proof.
  intros Hc Hf.
  unfold interleaved_goal_writes, set_goal_position_head.
  rewrite Hc. cbn [negb]. rewrite self_write_target.
  cbn [_use_static_fix with_motor _timer]. rewrite Hf.
  destruct (_timer (self w)) as [i |] eqn:Hi.
  - cbn [self with_timers write_target with_self compliant _motor
         with_motor WsMotor.compliant WsMotor.set_target_rot_position].
    unfold compliant in Hc. rewrite Hc. cbn [negb].
    cbn [self write_target with_self _use_static_fix with_motor _timer
         timers with_timers].
    rewrite Hf, Hi.
    cbn [self write_target with_self with_motor _timer timers with_timers].
    rewrite alter_cancel_twice.
    unfold _schedule_static_error_fix_tail.
    cbn [timers with_timers with_self self].
    rewrite alter_start_new.
    rewrite <- (alter_start_new _ 1) at 1.
    rewrite alter_start_new, alter_start_new.
    rewrite <- app_assoc. reflexivity.
  - cbn [self with_timers write_target with_self compliant _motor
         with_motor WsMotor.compliant WsMotor.set_target_rot_position].
    unfold compliant in Hc. rewrite Hc. cbn [negb].
    cbn [self write_target with_self _use_static_fix with_motor _timer
         timers with_timers].
    rewrite Hf, Hi.
    unfold _schedule_static_error_fix_tail.
    cbn [timers with_timers with_self self write_target].
    rewrite alter_start_new, alter_start_new.
    rewrite <- app_assoc. reflexivity.
Qed.
Lemma interleaved_goal_writes_frame (a b : A) w :
  compliant (self w) = false -> _use_static_fix (self w) = true ->
  _timer (self (interleaved_goal_writes a b w))
    = Some (S (length (timers w))) /\
  log (interleaved_goal_writes a b w) = log w /\
  WsMotor.target_rot_position
    (_motor (self (interleaved_goal_writes a b w)))
    = _to_motor_pos (self w) b.
Proof.
  destruct w as [[rp nm [mn mc mt mr mtemp ms mp] off dir tm usf] tms lg pc].
  cbn. intros -> ->.
  unfold interleaved_goal_writes, set_goal_position_head.
  cbn [self compliant _motor WsMotor.compliant negb write_target with_self
       with_motor _use_static_fix WsMotor.set_target_rot_position _timer
       timers].
  destruct tm as [i |];
    cbn [self with_timers compliant _motor WsMotor.compliant negb
         write_target with_self with_motor _use_static_fix
         WsMotor.set_target_rot_position _timer timers];
    unfold _schedule_static_error_fix_tail;
    cbn [self with_timers with_self with_timer _timer timers log _motor
         write_target with_motor WsMotor.set_target_rot_position
         WsMotor.target_rot_position];
    rewrite ?length_alter, ?length_app, ?length_alter; cbn [length];
    (split; [f_equal; lia |]); split; reflexivity.
Qed.
End OnePending.

(** C6: [_schedule_static_error_fix] cancels the timer [self._timer] names
    before it starts a new one, and that keeps one pending correction as
    long as goal writes run one after the other.  Its statements read and
    write [self._timer] without a lock, though.  When two threads assign
    [goal_position] to a stiff motor with the static fix on, and the second
    reaches the cancelling before the first has created its timer, both
    cancel the same old timer and each starts a new one: two timers wait on
    the motor, and [self._timer] names only the later one, so the earlier
    one can no longer be cancelled.  No callback has run (nothing is
    logged), and the target is the second thread's.  The same two writes one
    after the other leave exactly one waiting timer. *)
Theorem interleaved_goal_writes_leave_two_live_timers
    {A : Type} `{PyNum A} (a b : A) (w : World A) :
  compliant (self w) = false ->
  _use_static_fix (self w) = true ->
  timers_tracked w ->
  let w' := interleaved_goal_writes a b w in
  timers w'
    = (match _timer (self w) with
       | Some i => alter Timer.cancel i (timers w)
       | None => timers w
       end ++ [ {| Timer.interval := 1; Timer.st := Timer.Waiting |};
                {| Timer.interval := 1; Timer.st := Timer.Waiting |} ])%list /\
  _timer (self w') = Some (S (length (timers w))) /\
  log w' = log w /\
  WsMotor.target_rot_position (_motor (self w')) = _to_motor_pos (self w) b /\
  length (live_timers w') = 2 /\
  ~ length (live_timers w') <= 1 /\
  length (live_timers (set_goal_position b (set_goal_position a w))) = 1.
Proof.
  intros Hc Hf Hw. cbv zeta.
  pose proof (interleaved_goal_writes_timers a b w Hc Hf) as Ht.
  assert (Hlive : length (live_timers (interleaved_goal_writes a b w)) = 2).
  { unfold live_timers. fold (Timer.pending
      (timers (interleaved_goal_writes a b w))).
    rewrite Ht.
    change [ {| Timer.interval := 1; Timer.st := Timer.Waiting |};
             {| Timer.interval := 1; Timer.st := Timer.Waiting |} ]
      with ([ {| Timer.interval := 1; Timer.st := Timer.Waiting |} ]
            ++ [ {| Timer.interval := 1; Timer.st := Timer.Waiting |} ])%list.
    rewrite app_assoc, !pending_snoc, (tracked_cancel_none w Hw).
    reflexivity. }
  destruct (interleaved_goal_writes_frame a b w Hc Hf) as (Hr & Hl & Hg).
  split; [exact Ht |]. split; [exact Hr |]. split; [exact Hl |].
  split; [exact Hg |].
  split; [exact Hlive |].
  split; [rewrite Hlive; lia |].
  pose proof (tracked_pending _
                (tracked_set_goal b _ (tracked_set_goal a w Hw))) as Hle.
  assert (Hge : 1 <= length (live_timers
                               (set_goal_position b (set_goal_position a w)))).
  { unfold live_timers. fold (Timer.pending
      (timers (set_goal_position b (set_goal_position a w)))).
    assert (Hc' : compliant (self (set_goal_position a w)) = false).
    { unfold set_goal_position. rewrite Hc. cbn [negb].
      rewrite self_write_target. cbn [_use_static_fix with_motor].
      rewrite Hf. unfold _schedule_static_error_fix.
      destruct (_timer _); exact Hc. }
    assert (Hf' : _use_static_fix (self (set_goal_position a w)) = true).
    { unfold set_goal_position. rewrite Hc. cbn [negb].
      rewrite self_write_target. cbn [_use_static_fix with_motor].
      rewrite Hf. unfold _schedule_static_error_fix.
      destruct (_timer _); exact Hf. }
    unfold set_goal_position at 1. rewrite Hc'. cbn [negb].
    rewrite self_write_target. cbn [_use_static_fix with_motor].
    rewrite Hf'. rewrite schedule_timers, pending_snoc. cbn. lia. }
  lia.
Qed.

Lemma interleaved_goal_writes_leave_two_live_timers_witness :
  let w := step (UseStaticErrorFix true) left_antenna_world in
  let w' := interleaved_goal_writes 10%float 20%float w in
  compliant (self w) = false /\
  _use_static_fix (self w) = true /\
  timers w'
    = [ {| Timer.interval := 1; Timer.st := Timer.Waiting |};
        {| Timer.interval := 1; Timer.st := Timer.Waiting |} ] /\
  _timer (self w') = Some 1 /\
  log w' = [] /\
  length (live_timers w') = 2 /\
  ~ length (live_timers w') <= 1 /\
  length (live_timers (run [ SetGoal 10%float; SetGoal 20%float ] w)) = 1.
Proof.
  cbv zeta.
  assert (Hw : timers_tracked
                 (step (UseStaticErrorFix true) left_antenna_world)).
  { apply (tracked_run [ UseStaticErrorFix true ]);
      [reflexivity | apply tracked_attach]. }
  destruct (interleaved_goal_writes_leave_two_live_timers
              10%float 20%float
              (step (UseStaticErrorFix true) left_antenna_world)
              eq_refl eq_refl Hw)
    as (Ht & Hr & Hl & _ & Hlive & Hnot & Hseq).
  split; [reflexivity |]. split; [reflexivity |].
  split; [exact Ht |]. split; [exact Hr |]. split; [exact Hl |].
  split; [exact Hlive |]. split; [exact Hnot |]. exact Hseq.
Defined.

(** The race has a second form: the callback ends with an unsynchronised
    [self._timer = None].  A goal write that lands inside a running callback
    makes that last statement erase the reference to the timer the write has
    just started; the next goal write finds [self._timer] empty, cancels
    nothing, and two timers wait on the same motor. *)
Lemma goal_write_inside_callback_leaves_two_live_timers :
  let w := run goal_write_inside_callback left_antenna_world in
  timers w
    = [ {| Timer.interval := 1; Timer.st := Timer.Finished |};
        {| Timer.interval := 1; Timer.st := Timer.Waiting |};
        {| Timer.interval := 1; Timer.st := Timer.Waiting |} ] /\
  _timer (self w) = Some 2 /\
  length (live_timers w) = 2 /\
  ~ length (live_timers w) <= 1.
Proof.
  cbv zeta. vm_compute. repeat split. lia.
Qed.

(** What the cancelling achieves: as long as every goal write and every
    timer callback runs in one piece, no sequence of goal writes, compliance
    changes, static-fix switches, [goto] calls, simulator updates and timer
    firings leaves a freshly attached motor with two waiting timers: every
    waiting timer is the one [self._timer] names. *)
Lemma at_most_one_live_timer_in_sequential_runs
    {A : Type} `{PyNum A}
    (part_name motor_name : string) (cfg : config A) (es : list event) :
  forallb atomic es = true ->
  let w := run es (attach_dxl_motor part_name motor_name cfg) in
  timers_tracked w /\ length (live_timers w) <= 1.
Proof.
  intros Hes. cbv zeta.
  assert (Hw : timers_tracked
                 (run es (attach_dxl_motor part_name motor_name cfg))).
  { apply tracked_run; [exact Hes | apply tracked_attach]. }
  split; [exact Hw | apply tracked_pending; exact Hw].
Qed.

(* ===================================================================== *)
(** * Further properties of the motor wrapper *)
(* ===================================================================== *)

Section GoalWrite.
Context {A : Type} `{PyNum A}.
Implicit Types (w : World A).

Lemma schedule_self_frame (delay : Z) w :
  self (_schedule_static_error_fix delay w)
  = with_timer (Some (length (timers w))) (self w).
Proof.
  unfold _schedule_static_error_fix.
  destruct (_timer (self w)) as [j |]; cbn; [rewrite length_alter |];
    reflexivity.
Qed.

Lemma schedule_player_calls (delay : Z) w :
  player_calls (_schedule_static_error_fix delay w) = player_calls w.
Proof.
  unfold _schedule_static_error_fix.
  destruct (_timer (self w)); reflexivity.
Qed.

Lemma motor_after_goal_write (value : A) w :
  _motor (self (set_goal_position value w))
  = if compliant (self w) then _motor (self w)
    else WsMotor.set_target_rot_position (_to_motor_pos (self w) value)
           (_motor (self w)).
Proof.
  unfold set_goal_position.
  destruct (compliant (self w)); cbn [negb]; [reflexivity |].
  destruct (_use_static_fix _); [| reflexivity].
  rewrite schedule_self_frame. reflexivity.
Qed.
End GoalWrite.

Lemma Qc_local_of_motor (d : DynamixelMotor.t Qc) (v : Qc) :
  _as_local_pos d (_to_motor_pos d v) = v.
Proof.
  unfold _to_motor_pos, _as_local_pos, is_direct, offset.
  destruct (_direct d).
  - rewrite Qc_pint_1. cbn [padd psub pmul Qc_PyNum]. ring.
  - rewrite Qc_pint_m1. cbn [padd psub pmul pneg Qc_PyNum]. ring.
Qed.

(** X1: on a motor that is not compliant, in exact arithmetic, the goal
    read back after assigning [goal_position] is the value assigned, and the
    actuator's target is that value in the raw frame. *)
Theorem goal_read_after_write_is_value_written (w : World Qc) (value : Qc) :
  compliant (self w) = false ->
  goal_position (self (set_goal_position value w)) = value /\
  WsMotor.target_rot_position (_motor (self (set_goal_position value w)))
    = _to_motor_pos (self w) value.
Proof.
  intros Hc.
  assert (Hm := motor_after_goal_write value w). rewrite Hc in Hm.
  assert (Hd : _direct (self (set_goal_position value w)) = _direct (self w)
               /\ _offset (self (set_goal_position value w))
                  = _offset (self w)).
  { unfold set_goal_position. rewrite Hc. cbn [negb].
    destruct (_use_static_fix _); [| split; reflexivity].
    rewrite schedule_self_frame. split; reflexivity. }
  destruct Hd as [Hd Ho].
  split.
  - unfold goal_position. rewrite Hm. cbn [WsMotor.target_rot_position
      WsMotor.set_target_rot_position].
    unfold _as_local_pos, is_direct, offset. rewrite Hd, Ho.
    exact (Qc_local_of_motor (self w) value).
  - rewrite Hm. reflexivity.
Qed.

Lemma goal_read_after_write_is_value_written_witness :
  let w := attach_dxl_motor "head" "left_antenna" left_antenna_exact in
  compliant (self w) = false /\
  goal_position (self (set_goal_position (Q2Qc 45) w)) = Q2Qc 45.
Proof.
  cbv zeta. split; [reflexivity |].
  exact (proj1 (goal_read_after_write_is_value_written
                  (attach_dxl_motor "head" "left_antenna" left_antenna_exact)
                  (Q2Qc 45) eq_refl)).
Defined.

(** X2: assigning [goal_position] never changes the present position, the
    compliance, the offset, the orientation, the static-fix switch, the
    speed and torque settings, the log or the players; of the actuator it
    can only change the target. *)
Theorem goal_write_touches_only_target_and_timers
    {A : Type} `{PyNum A} (w : World A) (value : A) :
  let w' := set_goal_position value w in
  WsMotor.set_target_rot_position
    (WsMotor.target_rot_position (_motor (self w))) (_motor (self w'))
    = _motor (self w) /\
  present_position (self w') = present_position (self w) /\
  compliant (self w') = compliant (self w) /\
  offset (self w') = offset (self w) /\
  is_direct (self w') = is_direct (self w) /\
  _use_static_fix (self w') = _use_static_fix (self w) /\
  log w' = log w /\
  player_calls w' = player_calls w.
Proof.
  cbv zeta. split.
  - rewrite motor_after_goal_write.
    destruct (compliant (self w)); destruct (_motor (self w)); reflexivity.
  - unfold set_goal_position.
    destruct (compliant (self w)) eqn:Hc; cbn [negb];
      [repeat split; first [reflexivity | exact Hc] |].
    destruct (_use_static_fix _) eqn:Hf.
    + rewrite schedule_self_frame, schedule_log, schedule_player_calls.
      repeat split; first [reflexivity | exact Hc | exact Hf].
    + repeat split; first [reflexivity | exact Hc | exact Hf].
Qed.

(** X3: while the static fix is switched off, assigning [goal_position]
    creates, starts and cancels no timer and leaves [self._timer] alone. *)
Theorem goal_write_without_static_fix_keeps_timers
    {A : Type} `{PyNum A} (w : World A) (value : A) :
  _use_static_fix (self w) = false ->
  timers (set_goal_position value w) = timers w /\
  _timer (self (set_goal_position value w)) = _timer (self w).
Proof.
  intros Hf. unfold set_goal_position.
  destruct (negb (compliant (self w))); [| split; reflexivity].
  cbn. rewrite Hf. split; reflexivity.
Qed.

Lemma goal_write_without_static_fix_keeps_timers_witness :
  _use_static_fix (self left_antenna_world) = false /\
  timers (set_goal_position 45%float left_antenna_world) = [].
Proof.
  split; [reflexivity |].
  exact (proj1 (goal_write_without_static_fix_keeps_timers
                  left_antenna_world 45%float eq_refl)).
Defined.

(** X4: with the static fix on, a goal write on a motor that is not
    compliant re-arms the check: the timer [self._timer] referred to is
    cancelled, one new timer with a delay of 1 second is appended to the
    store, it waits, [self._timer] refers to it, and (every waiting timer
    having been the referenced one) it is the only timer that waits. *)
Theorem goal_write_rearms_the_check
    {A : Type} `{PyNum A} (w : World A) (value : A) :
  timers_tracked w ->
  compliant (self w) = false ->
  _use_static_fix (self w) = true ->
  let w' := set_goal_position value w in
  length (timers w') = S (length (timers w)) /\
  timers w' !! length (timers w)
    = Some {| Timer.interval := 1; Timer.st := Timer.Waiting |} /\
  _timer (self w') = Some (length (timers w)) /\
  length (live_timers w') = 1.
Proof.
  intros Hw Hc Hf. cbv zeta. unfold set_goal_position.
  rewrite Hc. cbn [negb].
  change (_use_static_fix
            (self (write_target (_to_motor_pos (self w) value) w)))
    with (_use_static_fix (self w)).
  rewrite Hf.
  set (w1 := write_target (_to_motor_pos (self w) value) w).
  assert (Ht : timers w1 = timers w) by reflexivity.
  assert (Hr : _timer (self w1) = _timer (self w)) by reflexivity.
  assert (Hlen : length (match _timer (self w) with
                         | Some i => alter Timer.cancel i (timers w)
                         | None => timers w
                         end) = length (timers w)).
  { destruct (_timer (self w)); [apply length_alter | reflexivity]. }
  unfold live_timers. fold (Timer.pending (timers (_schedule_static_error_fix 1 w1))).
  rewrite schedule_timers, schedule_timer_ref, Ht, Hr.
  split; [| split; [| split]].
  - rewrite length_app, Hlen. cbn. lia.
  - rewrite <- Hlen at 1. apply list_lookup_middle. reflexivity.
  - reflexivity.
  - rewrite pending_snoc. cbn.
    rewrite pending_none; [reflexivity |].
    intros i x Hi Hx.
    destruct (_timer (self w)) as [j |] eqn:Hj.
    + destruct (decide (j = i)) as [-> | Hne].
      * rewrite list_lookup_alter_eq in Hi.
        destruct (timers w !! i) as [y |]; [| discriminate].
        injection Hi as <-. exact (cancel_not_waiting y Hx).
      * rewrite list_lookup_alter_ne in Hi by exact Hne.
        pose proof (Hw i x Hi Hx) as Hr'. congruence.
    + pose proof (Hw i x Hi Hx) as Hr'. congruence.
Qed.

Lemma goal_write_rearms_the_check_witness :
  let w := run [ UseStaticErrorFix true; SetGoal 10%float ]
             left_antenna_world in
  timers_tracked w /\ compliant (self w) = false /\
  _use_static_fix (self w) = true /\
  _timer (self (set_goal_position 20%float w)) = Some 1 /\
  length (live_timers (set_goal_position 20%float w)) = 1.
Proof.
  cbv zeta.
  assert (Hw : timers_tracked
                 (run [ UseStaticErrorFix true; SetGoal 10%float ]
                    left_antenna_world)).
  { apply tracked_run; [reflexivity | apply tracked_attach]. }
  split; [exact Hw |]. split; [reflexivity |]. split; [reflexivity |].
  destruct (goal_write_rearms_the_check
              (run [ UseStaticErrorFix true; SetGoal 10%float ]
                 left_antenna_world) 20%float Hw eq_refl eq_refl)
    as (_ & _ & Hr & Hl).
  split; [exact Hr | exact Hl].
Defined.

Lemma Qc_pint_2 : pint 2 = (1 + 1)%Qc.
Proof. apply Qc_is_canon. reflexivity. Qed.

Lemma Qc_two_nonzero : (1 + 1)%Qc <> 0%Qc.
Proof. intros E. apply (f_equal this) in E. discriminate E. Qed.

(** X5: in exact arithmetic, a correction halves the residual: when the
    check finds [abs(present - goal)] above the threshold, the goal read
    back afterwards is [goal + (present - goal) / 2], the present position
    is untouched, and the residual left is half the one found. *)
Theorem correction_halves_the_residual (w : World Qc) (threshold : Qc) :
  let error := psub (present_position (self w)) (goal_position (self w)) in
  let w' := _fix_static_error threshold w in
  pgtb (pabs error) threshold = true ->
  goal_position (self w')
    = padd (goal_position (self w)) (ptruediv error (pint 2)) /\
  present_position (self w') = present_position (self w) /\
  psub (present_position (self w')) (goal_position (self w'))
    = ptruediv error (pint 2).
Proof.
  cbv zeta. intros He.
  assert (Hg : goal_position (self (_fix_static_error threshold w))
               = padd (goal_position (self w))
                   (ptruediv (psub (present_position (self w))
                                (goal_position (self w))) (pint 2))).
  { unfold _fix_static_error. rewrite He.
    unfold goal_position at 1. cbn [self with_self with_timer _motor
      write_target with_motor WsMotor.target_rot_position
      WsMotor.set_target_rot_position with_log].
    exact (Qc_local_of_motor (self w) _). }
  assert (Hp : present_position (self (_fix_static_error threshold w))
               = present_position (self w)).
  { unfold _fix_static_error. rewrite He. reflexivity. }
  split; [exact Hg |]. split; [exact Hp |].
  rewrite Hg, Hp, Qc_pint_2. cbn [padd psub ptruediv Qc_PyNum].
  field. exact Qc_two_nonzero.
Qed.

Lemma correction_halves_the_residual_witness :
  let w := step (Sync (Q2Qc 36))
             (set_goal_position (Q2Qc 20)
                (attach_dxl_motor "head" "left_antenna" left_antenna_exact)) in
  pgtb (pabs (psub (present_position (self w)) (goal_position (self w))))
    (pint 2) = true /\
  goal_position (self (_fix_static_error (pint 2) w))
    = padd (goal_position (self w))
        (ptruediv (psub (present_position (self w)) (goal_position (self w)))
           (pint 2)).
Proof.
  cbv zeta.
  assert (He : pgtb (pabs (psub
                 (present_position
                    (self (step (Sync (Q2Qc 36))
                             (set_goal_position (Q2Qc 20)
                                (attach_dxl_motor "head" "left_antenna"
                                   left_antenna_exact)))))
                 (goal_position
                    (self (step (Sync (Q2Qc 36))
                             (set_goal_position (Q2Qc 20)
                                (attach_dxl_motor "head" "left_antenna"
                                   left_antenna_exact)))))))
                 (pint 2) = true) by (vm_compute; reflexivity).
  split; [exact He |].
  exact (proj1 (correction_halves_the_residual _ (pint 2) He)).
Defined.

(** X6: in exact arithmetic a motor fresh from [find_dxl] and [__init__]
    reads the logical position 0, present and goal alike, when its
    configured orientation is ['direct'] or ['indirect'].  Any other
    orientation string is taken for direct by [find_dxl] and for indirect by
    [__init__], and the motor then reads minus twice its offset. *)
Theorem fresh_motor_reads_logical_zero
    (part_name motor_name : string) (cfg : config Qc) :
  let d := self (attach_dxl_motor part_name motor_name cfg) in
  let expected :=
    if String.eqb (cfg_orientation cfg) "direct"
       || String.eqb (cfg_orientation cfg) "indirect"
    then 0%Qc
    else (- cfg_offset cfg - cfg_offset cfg)%Qc in
  present_position d = expected /\ goal_position d = expected.
Proof.
  cbv zeta.
  unfold present_position, goal_position, _as_local_pos, is_direct, offset.
  cbn [attach_dxl_motor self __init__ _motor _direct _offset find_dxl
       WsMotor.__init__ WsMotor.rot_position WsMotor.target_rot_position].
  destruct (String.eqb (cfg_orientation cfg) "direct") eqn:Hd;
    destruct (String.eqb (cfg_orientation cfg) "indirect") eqn:Hi;
    cbn [orb].
  - apply String.eqb_eq in Hd, Hi. rewrite Hd in Hi. discriminate Hi.
  - rewrite Qc_pint_1. cbn [psub pmul Qc_PyNum]. split; ring.
  - rewrite Qc_pint_m1. cbn [psub pmul pneg Qc_PyNum]. split; ring.
  - rewrite Qc_pint_1. cbn [psub pmul pneg Qc_PyNum]. split; ring.
Qed.

(** X7: the placeholder actuator has no speed or torque attribute until one
    is assigned: on a freshly attached motor reading [moving_speed] or
    [torque_limit] raises [AttributeError]; after an assignment the value
    assigned is read back, the other attribute is as before, and neither
    assignment moves the motor or changes its compliance. *)
Theorem speed_and_torque_exist_once_assigned
    {A : Type} `{PyNum A}
    (part_name motor_name : string) (cfg : config A)
    (w : World A) (value : A) :
  getattr (self (attach_dxl_motor part_name motor_name cfg)) "moving_speed"
    = Raise (AttributeError "target_rot_speed") /\
  getattr (self (attach_dxl_motor part_name motor_name cfg)) "torque_limit"
    = Raise (AttributeError "power_ratio_limit") /\
  getattr (self (set_moving_speed value w)) "moving_speed"
    = Ok (VNum value) /\
  getattr (self (set_torque_limit value w)) "torque_limit"
    = Ok (VNum value) /\
  getattr (self (set_moving_speed value w)) "torque_limit"
    = getattr (self w) "torque_limit" /\
  getattr (self (set_torque_limit value w)) "moving_speed"
    = getattr (self w) "moving_speed" /\
  goal_position (self (set_moving_speed value w)) = goal_position (self w) /\
  goal_position (self (set_torque_limit value w)) = goal_position (self w) /\
  present_position (self (set_moving_speed value w))
    = present_position (self w) /\
  present_position (self (set_torque_limit value w))
    = present_position (self w) /\
  compliant (self (set_moving_speed value w)) = compliant (self w) /\
  compliant (self (set_torque_limit value w)) = compliant (self w).
Proof. repeat split. Qed.

(** X8: a timer that was cancelled or has run stays so whatever happens
    next, goal writes, firings of other timers and interleaved callbacks
    included: its callback is never (again) executed, a later firing of it
    changing nothing. *)
Theorem timer_that_is_over_never_runs
    {A : Type} `{PyNum A} (w : World A) (i : nat) (s : Timer.state)
    (es : list event) :
  s = Timer.Cancelled \/ s = Timer.Finished ->
  timer_state i w = Some s ->
  timer_state i (run es w) = Some s /\
  step (TimerRun i) (run es w) = run es w /\
  step (TimerRunHead i) (run es w) = run es w /\
  step (TimerRunTail i) (run es w) = run es w.
Proof.
  intros Hs Hi.
  pose proof (timer_over_run es w i s Hs Hi) as Hr.
  split; [exact Hr |].
  cbn [step]. rewrite Hr.
  destruct Hs as [-> | ->]; repeat split.
Qed.

Lemma timer_that_is_over_never_runs_witness :
  let w := run [ UseStaticErrorFix true; SetGoal 10%float; SetGoal 20%float ]
             left_antenna_world in
  timer_state 0 w = Some Timer.Cancelled /\
  timer_state 0 (run [ Sync 0%float; TimerRun 0; SetGoal 30%float ] w)
    = Some Timer.Cancelled.
Proof.
  cbv zeta. split; [reflexivity |].
  exact (proj1 (timer_that_is_over_never_runs
                  (run [ UseStaticErrorFix true; SetGoal 10%float;
                         SetGoal 20%float ] left_antenna_world)
                  0 Timer.Cancelled
                  [ Sync 0%float; TimerRun 0; SetGoal 30%float ]
                  (or_introl eq_refl) eq_refl)).
Defined.

(** X9: switching the static fix off (or on) neither cancels nor starts a
    timer: a check that is already scheduled still fires and corrects as it
    would have, the switch and the firing commuting. *)
Theorem static_fix_switch_leaves_pending_check
    {A : Type} `{PyNum A} (w : World A) (activate : bool) (i : nat) :
  timers (use_static_error_fix activate w) = timers w /\
  _timer (self (use_static_error_fix activate w)) = _timer (self w) /\
  step (TimerRun i) (use_static_error_fix activate w)
    = use_static_error_fix activate (step (TimerRun i) w).
Proof.
  split; [reflexivity |]. split; [reflexivity |].
  cbn [step].
  change (timer_state i (use_static_error_fix activate w))
    with (timer_state i w).
  destruct (timer_state i w) as [[] |]; try reflexivity.
  unfold _fix_static_error.
  change (present_position
            (self (set_timer_state i Timer.Running
                     (use_static_error_fix activate w))))
    with (present_position (self (set_timer_state i Timer.Running w))).
  change (goal_position
            (self (set_timer_state i Timer.Running
                     (use_static_error_fix activate w))))
    with (goal_position (self (set_timer_state i Timer.Running w))).
  destruct (pgtb _ (pint 2)); reflexivity.
Qed.

(** X10: whatever the table of player classes, a [goto] that raises leaves
    the state as it was, and one that returns has started the player it
    returns, waited for it if and only if asked to, and done nothing else:
    in no case does [goto] itself touch the actuator, the wrapper's flags,
    a timer or the log. *)
Theorem goto_only_starts_the_player_it_returns
    {A : Type} `{PyNum A}
    (modes : list (string * (pyval A -> A -> A
                             -> result (Trajectory.player A))))
    (goal duration : A) (starting_point : string) (wait : bool)
    (mode : string) (w : World A) :
  let r := goto modes goal duration starting_point wait mode w in
  self r.2 = self w /\ timers r.2 = timers w /\ log r.2 = log w /\
  match r.1 with
  | Ok traj_player =>
      player_calls r.2
      = (player_calls w ++ Trajectory.Start traj_player
           :: (if wait then [Trajectory.Wait traj_player] else []))%list
  | Raise _ => r.2 = w
  end.
Proof.
  cbv zeta. unfold goto.
  destruct (assoc mode modes) as [cls |]; [| repeat split].
  destruct (getattr (self w) starting_point) as [p | e]; [| repeat split].
  destruct (cls p goal duration) as [pl | e]; [| repeat split].
  destruct wait; cbn; repeat split.
  rewrite <- app_assoc. reflexivity.
Qed.

(* ===================================================================== *)
(** * The Orbita disks *)
(* ===================================================================== *)

(** ** Order on binary64 numbers that are not NaN *)

Lemma Prim2SF_is_nan (x : float) :
  PrimFloat.is_nan x = true <-> FloatOps.Prim2SF x = SpecFloat.S754_nan.
Proof.
  unfold PrimFloat.is_nan. rewrite FloatAxioms.eqb_spec. unfold SpecFloat.SFeqb.
  destruct (FloatOps.Prim2SF x) as [s | s | | s m e]; cbn.
  - split; discriminate.
  - destruct s; cbn; split; discriminate.
  - split; reflexivity.
  - rewrite Z.compare_refl.
    replace (Pos.compare_cont Eq m m) with Eq
      by (symmetry; apply Pos.compare_refl).
    destruct s; cbn; split; discriminate.
Qed.

Lemma SFleb_trans (x y z : SpecFloat.spec_float) :
  SpecFloat.SFleb x y = true -> SpecFloat.SFleb y z = true ->
  SpecFloat.SFleb x z = true.
Proof.
  unfold SpecFloat.SFleb, SpecFloat.SFcompare.
  destruct x as [sx | sx | | sx mx ex], y as [sy | sy | | sy my ey],
    z as [sz | sz | | sz mz ez];
    repeat match goal with s : bool |- _ => destruct s end;
    try reflexivity; try discriminate.
  all: change (Pos.compare_cont Eq) with Pos.compare.
  all: destruct (Z.compare_spec ex ey); try discriminate;
       destruct (Z.compare_spec ey ez); try discriminate;
       destruct (Z.compare_spec ex ez); try reflexivity; try lia.
  all: destruct (Pos.compare_spec mx my); try discriminate;
       destruct (Pos.compare_spec my mz); try discriminate;
       destruct (Pos.compare_spec mx mz); try reflexivity; cbn; try lia;
       try discriminate.
Qed.

Lemma SFleb_total (x y : SpecFloat.spec_float) :
  x <> SpecFloat.S754_nan -> y <> SpecFloat.S754_nan ->
  SpecFloat.SFleb x y = false -> SpecFloat.SFleb y x = true.
Proof.
  unfold SpecFloat.SFleb, SpecFloat.SFcompare.
  destruct x as [sx | sx | | sx mx ex], y as [sy | sy | | sy my ey];
    repeat match goal with s : bool |- _ => destruct s end;
    try reflexivity; try discriminate; try congruence.
  all: change (Pos.compare_cont Eq) with Pos.compare; intros _ _.
  all: rewrite (Z.compare_antisym ex ey), (Pos.compare_antisym mx my).
  all: destruct (ex ?= ey)%Z; cbn; try reflexivity; try discriminate.
  all: destruct (mx ?= my)%positive; cbn; try reflexivity; try discriminate.
Qed.

Lemma float_leb_trans (x y z : float) :
  PrimFloat.leb x y = true -> PrimFloat.leb y z = true ->
  PrimFloat.leb x z = true.
Proof. rewrite !FloatAxioms.leb_spec. apply SFleb_trans. Qed.

Lemma float_leb_total (x y : float) :
  PrimFloat.is_nan x = false -> PrimFloat.is_nan y = false ->
  PrimFloat.leb x y = false -> PrimFloat.leb y x = true.
Proof.
  intros Hx Hy. rewrite !FloatAxioms.leb_spec. apply SFleb_total.
  - intros E. apply Prim2SF_is_nan in E. congruence.
  - intros E. apply Prim2SF_is_nan in E. congruence.
Qed.

Lemma float_leb_refl (x : float) :
  PrimFloat.is_nan x = false -> PrimFloat.leb x x = true.
Proof.
  intros Hx. destruct (PrimFloat.leb x x) eqn:E; [reflexivity |].
  rewrite <- E. apply float_leb_total; assumption.
Qed.

Lemma float_leb_nan_r (x y : float) :
  PrimFloat.is_nan y = true -> PrimFloat.leb x y = false.
Proof.
  intros Hy. apply Prim2SF_is_nan in Hy.
  rewrite FloatAxioms.leb_spec, Hy. unfold SpecFloat.SFleb, SpecFloat.SFcompare.
  destruct (FloatOps.Prim2SF x); reflexivity.
Qed.

(** ** [np.argmin] *)

(** The scan has seen [pre], whose least value [best] sits at [best_i], the
    first index that holds it.  Without a NaN ahead, it ends on the first
    index that holds the least value of the whole sequence. *)
Lemma argmin_from_least (l pre : list float) (best_i : nat) (best : float) :
  pre !! best_i = Some best ->
  PrimFloat.is_nan best = false ->
  Forall (fun d => PrimFloat.leb best d = true) pre ->
  (forall k d, k < best_i -> pre !! k = Some d ->
               PrimFloat.leb d best = false) ->
  Forall (fun d => PrimFloat.is_nan d = false) l ->
  exists v,
    (pre ++ l)%list !! Orbita.argmin_from best_i best (length pre) l = Some v /\
    Forall (fun d => PrimFloat.leb v d = true) (pre ++ l)%list /\
    (forall k d, k < Orbita.argmin_from best_i best (length pre) l ->
                 (pre ++ l)%list !! k = Some d -> PrimFloat.leb d v = false).
Proof.
  revert pre best_i best.
  induction l as [| d rest IH]; intros pre best_i best Hb Hnb Hle Hfst Hl.
  - cbn [Orbita.argmin_from]. rewrite app_nil_r. exists best. auto.
  - apply Forall_cons in Hl as [Hd Hrest].
    assert (Hlen : length (pre ++ [d])%list = S (length pre))
      by (rewrite length_app; cbn; lia).
    cbn [Orbita.argmin_from].
    replace (pre ++ d :: rest)%list with ((pre ++ [d]) ++ rest)%list
      by (rewrite <- app_assoc; reflexivity).
    rewrite <- Hlen.
    destruct (PrimFloat.leb best d) eqn:E; cbn [negb].
    + apply IH; try assumption.
      * apply lookup_app_l_Some. exact Hb.
      * apply Forall_app. split; [exact Hle |]. repeat constructor. exact E.
      * intros k d' Hk Hd'. apply (Hfst k d' Hk).
        apply lookup_lt_Some in Hb.
        rewrite lookup_app_l in Hd' by lia. exact Hd'.
    + rewrite Hd.
      pose proof (float_leb_total best d Hnb Hd E) as Hdb.
      apply IH; try assumption.
      * apply list_lookup_middle. reflexivity.
      * apply Forall_app. split.
        -- eapply Forall_impl; [exact Hle |]. cbn. intros x Hx.
           eapply float_leb_trans; eassumption.
        -- repeat constructor. apply float_leb_refl. exact Hd.
      * intros k d' Hk Hd'.
        rewrite lookup_app_l in Hd' by lia.
        destruct (PrimFloat.leb d' d) eqn:E'; [| reflexivity].
        rewrite Forall_lookup in Hle. specialize (Hle k d' Hd').
        rewrite (float_leb_trans best d' d Hle E') in E. discriminate E.
Qed.

(** With a NaN ahead, the scan ends on the first one. *)
Lemma argmin_from_nan (l pre : list float) (best_i : nat) (best : float)
    (k : nat) (d : float) :
  PrimFloat.is_nan best = false ->
  l !! k = Some d -> PrimFloat.is_nan d = true ->
  Forall (fun d' => PrimFloat.is_nan d' = false) (take k l) ->
  Orbita.argmin_from best_i best (length pre) l = length pre + k.
Proof.
  revert pre best_i best k.
  induction l as [| d0 rest IH]; intros pre best_i best k Hnb Hk Hd Hbefore;
    [discriminate |].
  assert (Hlen : length (pre ++ [d0])%list = S (length pre))
    by (rewrite length_app; cbn; lia).
  cbn [Orbita.argmin_from].
  destruct k as [| k].
  - injection Hk as ->. rewrite float_leb_nan_r by exact Hd. cbn [negb].
    rewrite Hd. lia.
  - cbn in Hk, Hbefore. apply Forall_cons in Hbefore as [Hd0 Hbefore].
    rewrite Hd0. rewrite <- Hlen.
    destruct (negb (PrimFloat.leb best d0)).
    + rewrite (IH (pre ++ [d0])%list _ d0 k) by assumption. lia.
    + rewrite (IH (pre ++ [d0])%list _ best k) by assumption. lia.
Qed.

(** [np.argmin] returns the first index that holds the least value, and the
    index of the first NaN if there is one. *)
Lemma argmin_spec (l : list float) :
  l <> [] ->
  exists v,
    l !! Orbita.argmin l = Some v /\
    (forall k d, k < Orbita.argmin l -> l !! k = Some d ->
                 PrimFloat.is_nan d = false /\ PrimFloat.leb d v = false) /\
    if forallb (fun d => negb (PrimFloat.is_nan d)) l
    then Forall (fun d => PrimFloat.leb v d = true) l
    else PrimFloat.is_nan v = true.
Proof.
  destruct l as [| d0 rest]; [congruence |]. intros _.
  cbn [Orbita.argmin forallb].
  destruct (PrimFloat.is_nan d0) eqn:H0; cbn [negb andb].
  - exists d0. split; [reflexivity |]. split; [intros k d Hk; lia | exact H0].
  - destruct (forallb (fun d => negb (PrimFloat.is_nan d)) rest) eqn:Hall.
    + assert (Hrest : Forall (fun d => PrimFloat.is_nan d = false) rest).
      { apply Forall_forall. intros d Hd.
        rewrite forallb_forall in Hall.
        apply negb_true_iff, Hall, list_elem_of_In, Hd. }
      destruct (argmin_from_least rest [d0] 0 d0) as (v & Hv & Hmin & Hfst);
        try assumption.
      * reflexivity.
      * repeat constructor. apply float_leb_refl. exact H0.
      * intros k d Hk. lia.
      * exists v. cbn [length app] in Hv, Hmin, Hfst.
        split; [exact Hv |]. split; [| exact Hmin].
        intros k d Hk Hd. split; [| exact (Hfst k d Hk Hd)].
        assert (Hin : Forall (fun d => PrimFloat.is_nan d = false)
                        (d0 :: rest)) by (constructor; assumption).
        rewrite Forall_lookup in Hin. exact (Hin k d Hd).
    + assert (Hex : exists k d, rest !! k = Some d
                      /\ PrimFloat.is_nan d = true
                      /\ Forall (fun d' => PrimFloat.is_nan d' = false)
                           (take k rest)).
      { clear -Hall. induction rest as [| a rest IH]; [discriminate |].
        cbn [forallb] in Hall.
        destruct (PrimFloat.is_nan a) eqn:Ha.
        - exists 0, a. repeat split; [exact Ha | constructor].
        - cbn in Hall. destruct (IH Hall) as (k & d & Hk & Hd & Hb).
          exists (S k), d. repeat split; [exact Hk | exact Hd |].
          cbn. constructor; assumption. }
      destruct Hex as (k & d & Hk & Hd & Hb).
      pose proof (argmin_from_nan rest [d0] 0 d0 k d H0 Hk Hd Hb) as Hj.
      cbn [length] in Hj. rewrite Hj. change (1 + k) with (S k).
      exists d. split; [exact Hk |]. split; [| exact Hd].
      intros k' d' Hk' Hd'.
      assert (Hin : Forall (fun d => PrimFloat.is_nan d = false)
                      (d0 :: take k rest)) by (constructor; assumption).
      assert (Hd'' : (d0 :: take k rest) !! k' = Some d').
      { destruct k' as [| k']; [exact Hd' |].
        change (take k rest !! k' = Some d').
        rewrite lookup_take_lt by lia. exact Hd'. }
      rewrite Forall_lookup in Hin. pose proof (Hin k' d' Hd'') as Hn.
      split; [exact Hn |]. apply float_leb_nan_r. exact Hd.
Qed.

(** X11: [_find_zero] works in binary64, with
    [A = 360 / (52 / 24) = 166.15384615384616].  It returns one of its three
    candidates [z], [-(A - z)] and [A + z]: the first in that order whose
    computed distance [abs(p - c)] to the disk's position is least, so that
    no candidate has a smaller computed distance and every earlier candidate
    has a strictly larger one.  Should a distance be NaN, it returns the
    first candidate whose distance is. *)
Theorem find_zero_returns_nearest_candidate
    (disk : WsFakeOrbitaDisk.t float) (z : float) :
  let p := WsFakeOrbitaDisk.rot_position disk in
  let dist := fun c => PrimFloat.abs (PrimFloat.sub p c) in
  let best := Orbita._find_zero disk z in
  Orbita.period = 166.15384615384616%float /\
  exists j,
    Orbita.zeros z !! j = Some best /\
    (forall k c, k < j -> Orbita.zeros z !! k = Some c ->
       PrimFloat.is_nan (dist c) = false
       /\ PrimFloat.leb (dist c) (dist best) = false) /\
    if forallb (fun c => negb (PrimFloat.is_nan (dist c))) (Orbita.zeros z)
    then Forall (fun c => PrimFloat.leb (dist best) (dist c) = true)
           (Orbita.zeros z)
    else PrimFloat.is_nan (dist best) = true.
Proof.
  cbv zeta. split; [vm_compute; reflexivity |].
  unfold Orbita._find_zero, Orbita.zeros.
  set (p := WsFakeOrbitaDisk.rot_position disk).
  set (z1 := PrimFloat.opp (PrimFloat.sub Orbita.period z)).
  set (z2 := PrimFloat.add Orbita.period z).
  cbn [map forallb].
  set (dist := fun c => PrimFloat.abs (PrimFloat.sub p c)).
  change (PrimFloat.abs (PrimFloat.sub p z)) with (dist z).
  change (PrimFloat.abs (PrimFloat.sub p z1)) with (dist z1).
  change (PrimFloat.abs (PrimFloat.sub p z2)) with (dist z2).
  destruct (argmin_spec [ dist z; dist z1; dist z2 ])
    as (v & Hv & Hfst & Hmin); [discriminate |].
  cbn [forallb] in Hmin.
  exists (Orbita.argmin [ dist z; dist z1; dist z2 ]).
  pose proof (lookup_lt_Some _ _ _ Hv) as Hlt. cbn [length] in Hlt.
  destruct (Orbita.argmin [ dist z; dist z1; dist z2 ])
    as [| [| [| j]]]; [| | | lia];
    cbn [nth]; injection Hv as <-;
    (split; [reflexivity |]); (split; [|
      destruct (negb (PrimFloat.is_nan (dist z))
                && (negb (PrimFloat.is_nan (dist z1))
                    && (negb (PrimFloat.is_nan (dist z2)) && true)));
      [| exact Hmin];
      apply Forall_cons in Hmin as [H0 Hmin];
      apply Forall_cons in Hmin as [H1 Hmin];
      apply Forall_cons in Hmin as [H2 _];
      repeat constructor; assumption ]).
  - intros k c Hk. lia.
  - intros [| k] c Hk Hc; [| lia]. injection Hc as <-.
    exact (Hfst 0 (dist z) Hk eq_refl).
  - intros [| [| k]] c Hk Hc; [| | lia]; injection Hc as <-.
    + exact (Hfst 0 (dist z) Hk eq_refl).
    + exact (Hfst 1 (dist z1) Hk eq_refl).
Qed.

Lemma find_zero_returns_nearest_candidate_witness :
  let disk := WsFakeOrbitaDisk.__init__ "head.disk_top" (-60)%float in
  let z := 111.107%float in
  Orbita._find_zero disk z = (-55.04684615384616)%float /\
  Orbita.zeros z !! 1 = Some (Orbita._find_zero disk z) /\
  Forall (fun c =>
            PrimFloat.leb
              (PrimFloat.abs (PrimFloat.sub (-60)%float
                                (Orbita._find_zero disk z)))
              (PrimFloat.abs (PrimFloat.sub (-60)%float c)) = true)
    (Orbita.zeros z).
Proof.
  cbv zeta.
  split; [vm_compute; reflexivity |].
  split; [vm_compute; reflexivity |].
  destruct (find_zero_returns_nearest_candidate
              (WsFakeOrbitaDisk.__init__ "head.disk_top" (-60)%float)
              111.107%float) as (_ & j & _ & _ & Hmin).
  exact Hmin.
Defined.

Section OrbitaSetup.
Implicit Types (objs : list (WsFakeOrbitaDisk.t float)) (disks : list nat).

Lemma fmap_alter_invariant {B C : Type} (f : B -> C) (g : B -> B)
    (i : nat) (l : list B) :
  (forall x, f (g x) = f x) -> f <$> alter g i l = f <$> l.
Proof.
  intros Hfg. revert i. induction l as [| a l IH]; intros [| i]; cbn;
    try reflexivity.
  - rewrite Hfg. reflexivity.
  - f_equal. apply IH.
Qed.

Lemma setup_loop_id disks objs :
  fold_left (fun objs d => alter WsFakeOrbitaDisk.setup d objs) disks objs
  = objs.
Proof.
  revert objs. induction disks as [| d disks IH]; intros objs; cbn;
    [reflexivity |].
  rewrite list_alter_id by reflexivity. apply IH.
Qed.

Lemma set_offsets_fmap {C : Type} (f : WsFakeOrbitaDisk.t float -> C)
    disks (hz : list float) objs :
  (forall v d, f (WsFakeOrbitaDisk.set_offset v d) = f d) ->
  f <$> Orbita.set_offsets disks hz objs = f <$> objs.
Proof.
  intros Hf. revert hz objs.
  induction disks as [| d disks IH]; intros [| z hz] objs; cbn;
    try reflexivity.
  rewrite IH. apply fmap_alter_invariant. intros x. apply Hf.
Qed.

Lemma set_offsets_other disks (hz : list float) objs (r : nat) :
  r ∉ take (length hz) disks ->
  Orbita.set_offsets disks hz objs !! r = objs !! r.
Proof.
  revert hz objs.
  induction disks as [| d disks IH]; intros [| z hz] objs Hr; cbn;
    try reflexivity.
  cbn in Hr. apply not_elem_of_cons in Hr as [Hne Hr].
  rewrite IH by exact Hr. apply list_lookup_alter_ne. congruence.
Qed.

Lemma set_offsets_at disks (hz : list float) objs (i r : nat) (z : float)
    (d : WsFakeOrbitaDisk.t float) :
  NoDup disks -> disks !! i = Some r -> hz !! i = Some z ->
  objs !! r = Some d ->
  Orbita.set_offsets disks hz objs !! r
  = Some (WsFakeOrbitaDisk.set_offset
            (PrimFloat.add (Orbita._find_zero d z) (float_of_int 60)) d).
Proof.
  revert i hz objs.
  induction disks as [| d0 disks IH]; intros i hz objs Hnd Hi Hz Hd;
    [discriminate |].
  apply NoDup_cons in Hnd as [Hnot Hnd].
  destruct hz as [| z0 hz]; [destruct i; discriminate |].
  destruct i as [| i]; cbn in Hi, Hz.
  - injection Hi as ->. injection Hz as ->. cbn.
    rewrite set_offsets_other.
    2: { intros Hin. apply Hnot. eapply elem_of_take in Hin as (k & Hk & _).
         eapply list_elem_of_lookup_2; eauto. }
    rewrite list_lookup_alter_eq, Hd. reflexivity.
  - cbn. apply (IH i); try assumption.
    rewrite list_lookup_alter_ne; [exact Hd |].
    intros ->. apply Hnot. eapply list_elem_of_lookup_2; eauto.
Qed.
End OrbitaSetup.

(** X13: [setup_orbita_disks] moves no disk and renames none: names,
    positions, targets and compliance of all disks are as before, no disk
    is added or lost, and a disk that is not among the first
    [len(hardware_zero)] of [disks] is left exactly as it was, offset
    included ([zip] stops with the shorter sequence). *)
Theorem setup_orbita_disks_only_sets_offsets
    (disks : list nat) (hardware_zero : list float)
    (objs : list (WsFakeOrbitaDisk.t float)) (r : nat) :
  let objs' := Orbita.setup_orbita_disks disks hardware_zero objs in
  length objs' = length objs /\
  WsFakeOrbitaDisk.name <$> objs' = WsFakeOrbitaDisk.name <$> objs /\
  WsFakeOrbitaDisk.rot_position <$> objs'
    = WsFakeOrbitaDisk.rot_position <$> objs /\
  WsFakeOrbitaDisk.target_rot_position <$> objs'
    = WsFakeOrbitaDisk.target_rot_position <$> objs /\
  WsFakeOrbitaDisk.compliant <$> objs'
    = WsFakeOrbitaDisk.compliant <$> objs /\
  (if bool_decide (r ∈ take (length hardware_zero) disks)
   then True else objs' !! r = objs !! r).
Proof.
  cbv zeta. unfold Orbita.setup_orbita_disks. rewrite setup_loop_id.
  assert (Hn : WsFakeOrbitaDisk.name
                 <$> Orbita.set_offsets disks hardware_zero objs
               = WsFakeOrbitaDisk.name <$> objs)
    by (apply set_offsets_fmap; reflexivity).
  split.
  { rewrite <- (length_fmap WsFakeOrbitaDisk.name), Hn.
    apply length_fmap. }
  split; [exact Hn |].
  split; [apply set_offsets_fmap; reflexivity |].
  split; [apply set_offsets_fmap; reflexivity |].
  split; [apply set_offsets_fmap; reflexivity |].
  case_bool_decide as Hr; [exact I |].
  apply set_offsets_other. exact Hr.
Qed.

(** X14: for distinct disks, [setup_orbita_disks] gives the [i]-th disk the
    offset [_find_zero(disk, hardware_zero[i]) + 60], computed from the
    position the disk had on entry. *)
Theorem setup_orbita_disks_sets_each_offset
    (disks : list nat) (hardware_zero : list float)
    (objs : list (WsFakeOrbitaDisk.t float))
    (i r : nat) (z : float) (d : WsFakeOrbitaDisk.t float) :
  NoDup disks ->
  disks !! i = Some r -> hardware_zero !! i = Some z -> objs !! r = Some d ->
  Orbita.setup_orbita_disks disks hardware_zero objs !! r
  = Some (WsFakeOrbitaDisk.set_offset
            (PrimFloat.add (Orbita._find_zero d z) (float_of_int 60)) d).
Proof.
  intros Hnd Hi Hz Hd. unfold Orbita.setup_orbita_disks.
  rewrite setup_loop_id. eapply set_offsets_at; eauto.
Qed.

(* ===================================================================== *)
(** * LookAt *)
(* ===================================================================== *)

Lemma Qc_eq_bool_refl (x : Qc) : Qc_eq_bool x x = true.
Proof.
  unfold Qc_eq_bool. destruct (Qcanon.Qc_eq_dec x x); congruence.
Qed.

(** X15: in exact arithmetic, asking [set_target] for the target just asked
    for does nothing at all, whatever became of the first request: also
    after a target was found out of reach (or [look_at] failed otherwise),
    [look_at] is not tried again and no player is stopped. *)
Theorem set_target_again_does_nothing
    (s : LookAt.t Qc) (x y z : Qc) (first again : LookAt.outcome) :
  let s1 := (LookAt.set_target x y z first s).1 in
  LookAt.target_eqb (LookAt.target s1) (x, y, z) = true /\
  LookAt.set_target x y z again s1 = (s1, None).
Proof.
  cbv zeta.
  assert (Ht : LookAt.target_eqb
                 (LookAt.target (LookAt.set_target x y z first s).1)
                 (x, y, z) = true).
  { unfold LookAt.set_target.
    destruct (LookAt.target_eqb (LookAt.target s) (x, y, z)) eqn:E;
      [exact E |].
    assert (Hr : LookAt.target_eqb (x, y, z) (x, y, z) = true).
    { cbn. rewrite !Qc_eq_bool_refl. reflexivity. }
    destruct first as [ts | [| | kind]]; exact Hr. }
  split; [exact Ht |].
  unfold LookAt.set_target at 1. rewrite Ht. reflexivity.
Qed.

Section LookAtRuns.
Context {A : Type} `{PyNum A}.
Implicit Types (s : LookAt.t A).

Lemma set_target_keeps_accounted (x y z : A) (answer : LookAt.outcome) s :
  (forall t, t ∈ LookAt.handed_out s ->
             t ∈ LookAt.stopped s \/ t ∈ default [] (LookAt.trajs s)) ->
  forall t, t ∈ LookAt.handed_out (LookAt.set_target x y z answer s).1 ->
            t ∈ LookAt.stopped (LookAt.set_target x y z answer s).1
            \/ t ∈ default [] (LookAt.trajs (LookAt.set_target x y z answer s).1).
Proof.
  intros Hs t. unfold LookAt.set_target.
  destruct (LookAt.target_eqb (LookAt.target s) (x, y, z)); [apply Hs |].
  assert (Hold : t ∈ LookAt.handed_out s ->
                 t ∈ match LookAt.trajs s with
                     | Some ts => (LookAt.stopped s ++ ts)%list
                     | None => LookAt.stopped s
                     end).
  { intros Ht. destruct (Hs t Ht) as [Hst | Hcur].
    - destruct (LookAt.trajs s); [apply elem_of_app; left |]; exact Hst.
    - destruct (LookAt.trajs s) as [ts |]; cbn in Hcur.
      + apply elem_of_app. right. exact Hcur.
      + apply elem_of_nil in Hcur. contradiction. }
  destruct answer as [ts | [| | kind]]; cbn [fst LookAt.handed_out
    LookAt.stopped LookAt.trajs default]; intros Ht.
  - apply elem_of_app in Ht as [Ht | Ht]; [left; auto | right; exact Ht].
  - left; auto.
  - left; auto.
  - left; auto.
Qed.

Lemma moves_keep_accounted (ms : list (A * A * A * LookAt.outcome)) s :
  (forall t, t ∈ LookAt.handed_out s ->
             t ∈ LookAt.stopped s \/ t ∈ default [] (LookAt.trajs s)) ->
  forall t, t ∈ LookAt.handed_out (LookAt.moves ms s).1 ->
            t ∈ LookAt.stopped (LookAt.moves ms s).1
            \/ t ∈ default [] (LookAt.trajs (LookAt.moves ms s).1).
Proof.
  revert s. induction ms as [| [[[x y] z] answer] ms IH]; intros s Hs;
    [exact Hs |].
  cbn [LookAt.moves].
  pose proof (set_target_keeps_accounted x y z answer s Hs) as Hs1.
  destruct (LookAt.set_target x y z answer s) as [s1 e]; cbn [fst] in Hs1.
  specialize (IH s1 Hs1).
  destruct (LookAt.moves ms s1) as [s2 es]. exact IH.
Qed.

Lemma set_target_calls (x y z : A) (answer : LookAt.outcome) s :
  LookAt.period (LookAt.set_target x y z answer s).1 = LookAt.period s /\
  (Forall (fun c => LookAt.call_duration c = LookAt.period s
                    /\ LookAt.call_wait c = false) (LookAt.look_at_calls s) ->
   Forall (fun c => LookAt.call_duration c = LookAt.period s
                    /\ LookAt.call_wait c = false)
     (LookAt.look_at_calls (LookAt.set_target x y z answer s).1)).
Proof.
  unfold LookAt.set_target.
  destruct (LookAt.target_eqb (LookAt.target s) (x, y, z)); [auto |].
  destruct answer as [ts | [| | kind]]; cbn; (split; [reflexivity |]);
    intros Hc; apply Forall_app; (split; [exact Hc |]);
    repeat constructor.
Qed.

Lemma moves_calls (ms : list (A * A * A * LookAt.outcome)) s :
  LookAt.period (LookAt.moves ms s).1 = LookAt.period s /\
  (Forall (fun c => LookAt.call_duration c = LookAt.period s
                    /\ LookAt.call_wait c = false) (LookAt.look_at_calls s) ->
   Forall (fun c => LookAt.call_duration c = LookAt.period s
                    /\ LookAt.call_wait c = false)
     (LookAt.look_at_calls (LookAt.moves ms s).1)).
Proof.
  revert s. induction ms as [| [[[x y] z] answer] ms IH]; intros s;
    [cbn; auto |].
  cbn [LookAt.moves].
  destruct (set_target_calls x y z answer s) as [Hp Hc].
  destruct (LookAt.set_target x y z answer s) as [s1 e]; cbn [fst] in Hp, Hc.
  destruct (IH s1) as [Hp1 Hc1]. rewrite Hp in Hp1, Hc1.
  destruct (LookAt.moves ms s1) as [s2 es]. cbn [fst] in *.
  split; [exact Hp1 |]. intros Hs. apply Hc1, Hc, Hs.
Qed.
End LookAtRuns.

(** X16: however the sliders are moved and whatever [look_at] answers, no
    player is left running unattended: every player [look_at] ever handed
    out has been stopped, unless it belongs to the batch [self.trajs]
    currently holds.  Every call of [look_at] was made with the period as
    duration and without waiting, also in a run in which [look_at] only
    ever raised and handed out no player at all. *)
Theorem look_at_players_are_stopped_or_current
    {A : Type} `{PyNum A}
    (init_target : A * A * A) (period : A)
    (ms : list (A * A * A * LookAt.outcome)) :
  let s := (LookAt.moves ms (LookAt.__init__ init_target period)).1 in
  (forall t : nat,
     t ∈ LookAt.handed_out s ->
     t ∈ LookAt.stopped s \/ t ∈ default [] (LookAt.trajs s)) /\
  Forall (fun c => LookAt.call_duration c = period
                   /\ LookAt.call_wait c = false) (LookAt.look_at_calls s).
Proof.
  cbv zeta. split.
  - apply (moves_keep_accounted ms (LookAt.__init__ init_target period)).
    intros t' Ht'. cbn in Ht'. apply elem_of_nil in Ht'. contradiction.
  - apply (moves_calls ms (LookAt.__init__ init_target period)).
    constructor.
Qed.

Lemma look_at_players_are_stopped_or_current_witness :
  let s := (LookAt.moves
              [ (0.5%float, 0.1%float, 0%float, LookAt.Returned [ 7; 8 ]);
                (0.5%float, 5%float, 0%float,
                 LookAt.Raised LookAt.Err_ValueError);
                (0.5%float, 0.2%float, 0%float, LookAt.Returned [ 9 ]) ]
              (LookAt.__init__ (0.5%float, 0%float, 0%float) 0.05%float)).1 in
  let raised := (LookAt.moves
                   [ (0.5%float, 5%float, 0%float,
                      LookAt.Raised LookAt.Err_ValueError);
                     (0.5%float, 6%float, 0%float,
                      LookAt.Raised (LookAt.Err_other "RuntimeError")) ]
                   (LookAt.__init__ (0.5%float, 0%float, 0%float)
                      0.05%float)).1 in
  7 ∈ LookAt.handed_out s /\
  (7 ∈ LookAt.stopped s \/ 7 ∈ default [] (LookAt.trajs s)) /\
  LookAt.stopped s = [ 7; 8; 7; 8 ] /\
  LookAt.handed_out raised = [] /\
  length (LookAt.look_at_calls raised) = 2 /\
  Forall (fun c => LookAt.call_duration c = 0.05%float
                   /\ LookAt.call_wait c = false)
    (LookAt.look_at_calls raised).
Proof.
  cbv zeta.
  assert (Hin : 7 ∈ LookAt.handed_out
                  (LookAt.moves
                     [ (0.5%float, 0.1%float, 0%float,
                        LookAt.Returned [ 7; 8 ]);
                       (0.5%float, 5%float, 0%float,
                        LookAt.Raised LookAt.Err_ValueError);
                       (0.5%float, 0.2%float, 0%float,
                        LookAt.Returned [ 9 ]) ]
                     (LookAt.__init__ (0.5%float, 0%float, 0%float)
                        0.05%float)).1).
  { vm_compute. apply list_elem_of_here. }
  split; [exact Hin |].
  split.
  { exact (proj1 (look_at_players_are_stopped_or_current
                    (0.5%float, 0%float, 0%float) 0.05%float _) 7 Hin). }
  split; [vm_compute; reflexivity |].
  split; [vm_compute; reflexivity |].
  split; [vm_compute; reflexivity |].
  exact (proj2 (look_at_players_are_stopped_or_current
                  (0.5%float, 0%float, 0%float) 0.05%float
                  [ (0.5%float, 5%float, 0%float,
                     LookAt.Raised LookAt.Err_ValueError);
                    (0.5%float, 6%float, 0%float,
                     LookAt.Raised (LookAt.Err_other "RuntimeError")) ])).
Defined.

(* ===================================================================== *)
(** * The WebSocket gateway *)
(* ===================================================================== *)

Section GatewayFacts.
Context {A : Type} `{PyNum A}.
Implicit Types (s : Gateway.Store A) (srv : Gateway.WsServer).

Lemma shared_servers_spec (names : list string) s srv :
  Gateway.ws s = Some srv ->
  (Gateway.shared_servers names s).1
    = seq (length (Gateway.io_objs s)) (length names) /\
  Gateway.ws (Gateway.shared_servers names s).2
    = Some {| Gateway.host := Gateway.host srv;
              Gateway.port := Gateway.port srv;
              Gateway.running := Gateway.running srv;
              Gateway.parts :=
                (Gateway.parts srv
                   ++ seq (length (Gateway.io_objs s)) (length names))%list;
              Gateway.motors := Gateway.motors srv;
              Gateway.background := Gateway.background srv |} /\
  Gateway.io_objs (Gateway.shared_servers names s).2
    = (Gateway.io_objs s
         ++ map (fun n => {| Gateway.part_name := n; Gateway.io_motors := [];
                             Gateway.io_disks := [] |}) names)%list /\
  Gateway.motor_objs (Gateway.shared_servers names s).2
    = Gateway.motor_objs s /\
  Gateway.disk_objs (Gateway.shared_servers names s).2 = Gateway.disk_objs s.
Proof.
  revert s srv. induction names as [| n names IH]; intros s srv Hs.
  - cbn. rewrite !app_nil_r. destruct srv. repeat split; assumption.
  - cbn [Gateway.shared_servers].
    destruct (Gateway.shared_server n s) as [io s1] eqn:E1.
    unfold Gateway.shared_server in E1. cbn in E1. rewrite Hs in E1.
    injection E1 as <- <-.
    match goal with
    | |- context [Gateway.shared_servers names ?s1] =>
        specialize (IH s1 _ eq_refl)
    end.
    destruct (Gateway.shared_servers names _) as [ios s2].
    cbn [fst snd] in *. destruct IH as (Hi & Hw & Ho & Hm & Hd).
    cbn [Gateway.io_objs Gateway.with_ws Gateway.with_io_objs
         Gateway.register Gateway.parts Gateway.host Gateway.port
         Gateway.running Gateway.motors Gateway.background
         Gateway.motor_objs Gateway.disk_objs] in Hi, Hw, Ho, Hm, Hd.
    rewrite length_app in Hi, Hw. cbn [length] in Hi, Hw.
    replace (length (Gateway.io_objs s) + 1)
      with (S (length (Gateway.io_objs s))) in Hi, Hw by lia.
    rewrite Hi, Hw, Ho, Hm, Hd. cbn [length seq map].
    rewrite <- !app_assoc. repeat split.
Qed.
End GatewayFacts.

(** X17: however many parts connect through [WsIO.shared_server], they
    share one server: the first call creates it (port 6171, no motor known
    yet) and starts its thread, every call creates one io, and the server's
    [parts] are these ios in the order of the calls. *)
Theorem shared_server_is_created_once
    {A : Type} `{PyNum A} (first : string) (others : list string) :
  let r := Gateway.shared_servers (first :: others) (Gateway.empty (A := A)) in
  r.1 = seq 0 (S (length others)) /\
  Gateway.part_name <$> Gateway.io_objs r.2 = first :: others /\
  Gateway.ws r.2
    = Some {| Gateway.host := "0.0.0.0"; Gateway.port := 6171;
              Gateway.running := false;
              Gateway.parts := seq 0 (S (length others));
              Gateway.motors := ∅;
              Gateway.background := true |}.
Proof.
  cbv zeta. cbn [Gateway.shared_servers].
  destruct (Gateway.shared_server first Gateway.empty) as [io s1] eqn:E1.
  unfold Gateway.shared_server in E1. cbn in E1. injection E1 as <- <-.
  match goal with
  | |- context [Gateway.shared_servers others ?s1] =>
      pose proof (shared_servers_spec others s1 _ eq_refl) as Hspec
  end.
  destruct (Gateway.shared_servers others _) as [ios s2].
  cbn [fst snd] in *. destruct Hspec as (Hi & Hw & Ho & _ & _).
  cbn in Hi, Hw, Ho. rewrite Hi, Hw, Ho. cbn.
  split; [reflexivity |]. split; [| reflexivity].

  f_equal. clear Hi Hw Ho.
  induction others as [| o others IH]; cbn; [reflexivity |].
  f_equal. exact IH.
Qed.

Lemma append_inj_r (p a b : string) : (p ++ a)%string = (p ++ b)%string -> a = b.
Proof.
  induction p as [| c p IH]; cbn; [auto |].
  intros [= E]. apply IH. exact E.
Qed.

Section Attach.
Context {A : Type} `{PyNum A}.
Implicit Types (s : Gateway.Store A) (srv : Gateway.WsServer).

Lemma find_dxl_name (part_name dxl_name : string) (cfg : config A) :
  WsMotor.name (Session.find_dxl part_name dxl_name cfg)
  = (part_name ++ "." ++ dxl_name)%string.
Proof. reflexivity. Qed.

Lemma attach_loop_spec (io : nat) (part : string)
    (items : list (string * config A))
    (dict : gmap string (Gateway.handle A)) s srv :
  Gateway.ws s = Some srv ->
  exists dict' s' srv',
    Gateway.attach_loop io part items dict s = (Ok dict', s') /\
    Gateway.ws s' = Some srv' /\
    Gateway.motor_objs s'
      = (Gateway.motor_objs s
           ++ ((fun x => Session.find_dxl part x.1 x.2) <$> items))%list /\
    Gateway.disk_objs s' = Gateway.disk_objs s /\
    Gateway.io_objs s'
      = alter (fun o =>
                 {| Gateway.part_name := Gateway.part_name o;
                    Gateway.io_motors :=
                      (Gateway.io_motors o
                         ++ seq (length (Gateway.motor_objs s))
                              (length items))%list;
                    Gateway.io_disks := Gateway.io_disks o |})
          io (Gateway.io_objs s) /\
    Gateway.parts srv' = Gateway.parts srv /\
    (forall n, n ∉ items.*1 -> dict' !! n = dict !! n) /\
    (forall key, key ∉ ((fun x => (part ++ "." ++ x.1)%string) <$> items) ->
                 Gateway.motors srv' !! key = Gateway.motors srv !! key) /\
    (NoDup items.*1 ->
     forall k n c, items !! k = Some (n, c) ->
       dict' !! n
       = Some {| Gateway.h_motor := length (Gateway.motor_objs s) + k;
                 Gateway.h_world := Session.attach_dxl_motor part n c |} /\
       Gateway.motors srv' !! (part ++ "." ++ n)%string
       = Some (length (Gateway.motor_objs s) + k)).
Proof.
  revert dict s srv. induction items as [| [n0 c0] items IH];
    intros dict s srv Hs.
  - exists dict, s, srv. cbn. rewrite app_nil_r.
    split; [reflexivity |]. split; [exact Hs |]. split; [reflexivity |].
    split; [reflexivity |].
    split.
    { symmetry. apply list_alter_id. intros [pn ms ds]. cbn.
      rewrite app_nil_r. reflexivity. }
    split; [reflexivity |]. split; [reflexivity |]. split; [reflexivity |].
    intros _ k n c Hk. rewrite lookup_nil in Hk. discriminate.
  - cbn [Gateway.attach_loop]. unfold Gateway.find_dxl at 1.
    cbn [Gateway.ws Gateway.with_io_objs Gateway.with_motor_objs].
    rewrite Hs.
    match goal with
    | |- context [Gateway.attach_loop io part items ?d1 ?s1] =>
        destruct (IH d1 s1 _ eq_refl)
          as (dict' & s' & srv' & Hrun & Hws & Hm & Hd & Hio & Hp & Hdict
              & Hmot & Hnd)
    end.
    exists dict', s', srv'.
    cbn [Gateway.motor_objs Gateway.disk_objs Gateway.io_objs
         Gateway.with_ws Gateway.with_io_objs Gateway.with_motor_objs
         Gateway.set_motor Gateway.parts Gateway.motors]
      in Hm, Hd, Hio, Hp, Hmot, Hnd.
    rewrite length_app in Hio, Hnd. cbn [length] in Hio, Hnd.
    split; [exact Hrun |]. split; [exact Hws |].
    split; [rewrite Hm, <- app_assoc; reflexivity |].
    split; [exact Hd |].
    split.
    { rewrite Hio, list_alter_alter_eq. apply list_alter_ext; [| reflexivity].
      intros [pn ms ds] _. cbn. rewrite <- app_assoc. cbn.
      replace (length (Gateway.motor_objs s) + 1)
        with (S (length (Gateway.motor_objs s))) by lia.
      reflexivity. }
    split; [exact Hp |].
    split.
    { intros n Hn. cbn in Hn. apply not_elem_of_cons in Hn as [Hne Hn].
      rewrite (Hdict n Hn). apply lookup_insert_ne. congruence. }
    split.
    { intros key Hk. cbn in Hk. apply not_elem_of_cons in Hk as [Hne Hk].
      rewrite (Hmot key Hk). apply lookup_insert_ne.
      rewrite find_dxl_name. congruence. }
    intros Hdup k n c Hk. cbn in Hdup.
    apply NoDup_cons in Hdup as [Hnot Hdup].
    destruct k as [| k]; cbn in Hk.
    + injection Hk as -> ->. rewrite Nat.add_0_r. split.
      * rewrite (Hdict n Hnot). apply lookup_insert_eq.
      * rewrite Hmot.
        -- rewrite find_dxl_name. apply lookup_insert_eq.
        -- intros Hin. apply list_elem_of_fmap in Hin as ([n' c'] & E & Hin).
           apply append_inj_r in E. cbn in E. injection E as E.
           apply Hnot. apply list_elem_of_fmap. exists (n', c'). auto.
    + destruct (Hnd Hdup k n c Hk) as [Hd1 Hm1].
      replace (length (Gateway.motor_objs s) + S k)
        with (length (Gateway.motor_objs s) + 1 + k) by lia.
      split; assumption.
Qed.
End Attach.

(** What [attach_dxl_motors] leaves behind for one of its motors. *)
Lemma attach_dxl_motors_item
    {A : Type} `{PyNum A}
    (io : nat) (part : string) (items : list (string * config A))
    (s : Gateway.Store A) (srv : Gateway.WsServer)
    (k : nat) (n : string) (c : config A) :
  Gateway.ws s = Some srv ->
  NoDup items.*1 ->
  items !! k = Some (n, c) ->
  exists dict s' srv',
    Gateway.attach_dxl_motors io part items s = (Ok dict, s') /\
    Gateway.ws s' = Some srv' /\
    Gateway.motor_objs s'
      = (Gateway.motor_objs s
           ++ ((fun x => Session.find_dxl part x.1 x.2) <$> items))%list /\
    dict !! n
      = Some {| Gateway.h_motor := length (Gateway.motor_objs s) + k;
                Gateway.h_world := Session.attach_dxl_motor part n c |} /\
    Gateway.motors srv' !! (part ++ "." ++ n)%string
      = Some (length (Gateway.motor_objs s) + k).
Proof.
  intros Hs Hnd Hk. unfold Gateway.attach_dxl_motors.
  destruct (attach_loop_spec io part items ∅ s srv Hs)
    as (dict & s' & srv' & Hrun & Hws & Hm & _ & _ & _ & _ & _ & Hat).
  destruct (Hat Hnd k n c Hk) as [Hd Hmot].
  exists dict, s', srv'. repeat split; assumption.
Qed.

Lemma attached_motor_lookup
    {A : Type} `{PyNum A}
    (part : string) (items : list (string * config A))
    (objs : list (WsMotor.t A)) (k : nat) (n : string) (c : config A) :
  items !! k = Some (n, c) ->
  (objs ++ ((fun x => Session.find_dxl part x.1 x.2) <$> items))%list
    !! (length objs + k)
  = Some (Session.find_dxl part n c).
Proof.
  intros Hk. rewrite lookup_app_r by lia.
  replace (length objs + k - length objs) with k by lia.
  rewrite list_lookup_fmap, Hk. reflexivity.
Qed.

(** X18: with a server in place, [attach_dxl_motors] never raises; it
    appends one actuator per configured motor to the store, and for
    distinct motor names the dictionary it returns holds, under each name, a
    wrapper that is the freshly initialised [DynamixelMotor] around the
    actuator created for it, the server knowing that same actuator under the
    wrapper's full name [part.motor]. *)
Theorem attach_dxl_motors_registers_every_motor
    {A : Type} `{PyNum A}
    (io : nat) (part : string) (items : list (string * config A))
    (s : Gateway.Store A) (srv : Gateway.WsServer)
    (k : nat) (n : string) (c : config A) :
  Gateway.ws s = Some srv ->
  NoDup items.*1 ->
  items !! k = Some (n, c) ->
  let r := length (Gateway.motor_objs s) + k in
  let h := {| Gateway.h_motor := r;
              Gateway.h_world := Session.attach_dxl_motor part n c |} in
  exists dict s' srv',
    Gateway.attach_dxl_motors io part items s = (Ok dict, s') /\
    Gateway.ws s' = Some srv' /\
    length (Gateway.motor_objs s')
      = length (Gateway.motor_objs s) + length items /\
    dict !! n = Some h /\
    Gateway.motor_objs s' !! r = Some (Session.find_dxl part n c) /\
    Gateway.motors srv' !! DynamixelMotor.name (self (Gateway.h_world h))
      = Some r /\
    Gateway.load s' h = Session.attach_dxl_motor part n c.
Proof.
  intros Hs Hnd Hk. cbv zeta.
  destruct (attach_dxl_motors_item io part items s srv k n c Hs Hnd Hk)
    as (dict & s' & srv' & Hrun & Hws & Hm & Hd & Hmot).
  pose proof (attached_motor_lookup part items (Gateway.motor_objs s) k n c Hk)
    as Hobj.
  rewrite <- Hm in Hobj.
  exists dict, s', srv'.
  split; [exact Hrun |]. split; [exact Hws |].
  split; [rewrite Hm, length_app, length_fmap; reflexivity |].
  split; [exact Hd |]. split; [exact Hobj |]. split; [exact Hmot |].
  unfold Gateway.load. cbn [Gateway.h_motor Gateway.h_world].
  rewrite Hobj. reflexivity.
Qed.

Section Sync.
Context {A : Type} `{PyNum A}.
Implicit Types (srv : Gateway.WsServer) (objs : list (WsMotor.t A)).

Lemma incoming_fmap {C : Type} (f : WsMotor.t A -> C) srv
    (sm : list (string * A)) objs :
  (forall v m, f (WsMotor.set_rot_position v m) = f m) ->
  f <$> Gateway.incoming srv sm objs = f <$> objs.
Proof.
  intros Hf. unfold Gateway.incoming. revert objs.
  induction sm as [| [n p] sm IH]; intros objs; cbn; [reflexivity |].
  rewrite IH. destruct (Gateway.motors srv !! n); [| reflexivity].
  apply fmap_alter_invariant. intros x. apply Hf.
Qed.

Lemma incoming_other srv (sm : list (string * A)) objs (r : nat) :
  r ∉ omap (fun m => Gateway.motors srv !! m.1) sm ->
  Gateway.incoming srv sm objs !! r = objs !! r.
Proof.
  unfold Gateway.incoming. revert objs.
  induction sm as [| [n p] sm IH]; intros objs Hr; cbn; [reflexivity |].
  cbn in Hr. destruct (Gateway.motors srv !! n) as [r' |] eqn:E.
  - apply not_elem_of_cons in Hr as [Hne Hr].
    rewrite IH by exact Hr. apply list_lookup_alter_ne. congruence.
  - apply IH. exact Hr.
Qed.

(** Once an answer has put [p] in actuator [r], later entries that address
    [r] with the same [p], or address other actuators, leave it there. *)
Lemma incoming_stays srv (sm : list (string * A)) objs (r : nat) (p : A)
    (m : WsMotor.t A) :
  objs !! r = Some m -> WsMotor.rot_position m = p ->
  (forall n' p', (n', p') ∈ sm -> Gateway.motors srv !! n' = Some r ->
                 p' = p) ->
  WsMotor.rot_position <$> Gateway.incoming srv sm objs !! r = Some p.
Proof.
  unfold Gateway.incoming. revert objs m.
  induction sm as [| [n0 p0] sm IH]; intros objs m Hm Hp Hall; cbn.
  - rewrite Hm. cbn. congruence.
  - destruct (Gateway.motors srv !! n0) as [r0 |] eqn:E.
    + destruct (decide (r0 = r)) as [-> | Hne].
      * apply (IH _ (WsMotor.set_rot_position p0 m)).
        -- rewrite list_lookup_alter_eq, Hm. reflexivity.
        -- cbn. apply (Hall n0 p0); [apply list_elem_of_here | exact E].
        -- intros n' p' Hin. apply Hall. apply list_elem_of_further, Hin.
      * apply (IH _ m); [| exact Hp |].
        -- rewrite list_lookup_alter_ne by exact Hne. exact Hm.
        -- intros n' p' Hin. apply Hall. apply list_elem_of_further, Hin.
    + apply (IH _ m); [exact Hm | exact Hp |].
      intros n' p' Hin. apply Hall. apply list_elem_of_further, Hin.
Qed.

Lemma incoming_delivers srv (sm : list (string * A)) objs
    (n : string) (r : nat) (p : A) (m : WsMotor.t A) :
  Gateway.motors srv !! n = Some r -> objs !! r = Some m ->
  (n, p) ∈ sm ->
  (forall n' p', (n', p') ∈ sm -> Gateway.motors srv !! n' = Some r ->
                 p' = p) ->
  Gateway.incoming srv sm objs !! r = Some (WsMotor.set_rot_position p m).
Proof.
  intros Hn Hm Hin Hall.
  assert (Hpos : WsMotor.rot_position <$> Gateway.incoming srv sm objs !! r
                 = Some p).
  { assert (Hlt : r < length objs) by (eapply lookup_lt_Some; eauto).
    clear Hm. revert objs Hlt.
    unfold Gateway.incoming.
    induction sm as [| [n0 p0] sm IH]; intros objs Hlt;
      [apply elem_of_nil in Hin; contradiction |].
    cbn.
    destruct (Gateway.motors srv !! n0) as [r0 |] eqn:E.
    - destruct (decide (r0 = r)) as [-> | Hne].
      + destruct (lookup_lt_is_Some_2 objs r Hlt) as [m0 Hm0].
        apply (incoming_stays srv sm _ r p (WsMotor.set_rot_position p0 m0)).
        * rewrite list_lookup_alter_eq, Hm0. reflexivity.
        * cbn. apply (Hall n0 p0); [apply list_elem_of_here | exact E].
        * intros n' p' Hin'. apply Hall. apply list_elem_of_further, Hin'.
      + apply elem_of_cons in Hin as [Heq | Hin];
          [injection Heq as -> ->; congruence |].
        apply IH; [exact Hin | |].
        * intros n' p' Hin'. apply Hall. apply list_elem_of_further, Hin'.
        * rewrite length_alter. exact Hlt.
    - apply elem_of_cons in Hin as [Heq | Hin];
        [injection Heq as -> ->; congruence |].
      apply IH; [exact Hin | | exact Hlt].
      intros n' p' Hin'. apply Hall. apply list_elem_of_further, Hin'. }
  pose proof (incoming_fmap
                (fun m => (WsMotor.name m, WsMotor.compliant m,
                           WsMotor.target_rot_position m,
                           WsMotor.temperature m, WsMotor.target_rot_speed m,
                           WsMotor.power_ratio_limit m))
                srv sm objs ltac:(reflexivity)) as Hf.
  apply (f_equal (fun l => l !! r)) in Hf.
  rewrite !list_lookup_fmap, Hm in Hf.
  destruct (Gateway.incoming srv sm objs !! r) as [m' |];
    [| discriminate].
  cbn in Hf, Hpos. injection Hf as H1 H2 H3 H4 H5 H6.
  injection Hpos as Hpos.
  destruct m', m. cbn in *. subst. reflexivity.
Qed.
End Sync.

(** X19: one round of [sync] changes nothing but the present position of
    the actuators its answer addresses through a name the server knows:
    names, targets, compliance and number of the actuators, the disks, the
    ios and the server are as before, an actuator no entry addresses is
    exactly as before, and the message sent is built before the answer is
    taken in. *)
Theorem sync_round_only_moves_addressed_motors
    {A : Type} `{PyNum A}
    (srv : Gateway.WsServer) (state_motors : list (string * A))
    (s : Gateway.Store A) (r : nat) :
  let s' := (Gateway.sync_round srv state_motors s).2 in
  (Gateway.sync_round srv state_motors s).1 = Gateway.outgoing srv s /\
  length (Gateway.motor_objs s') = length (Gateway.motor_objs s) /\
  WsMotor.name <$> Gateway.motor_objs s'
    = WsMotor.name <$> Gateway.motor_objs s /\
  WsMotor.target_rot_position <$> Gateway.motor_objs s'
    = WsMotor.target_rot_position <$> Gateway.motor_objs s /\
  WsMotor.compliant <$> Gateway.motor_objs s'
    = WsMotor.compliant <$> Gateway.motor_objs s /\
  Gateway.disk_objs s' = Gateway.disk_objs s /\
  Gateway.io_objs s' = Gateway.io_objs s /\
  Gateway.ws s' = Gateway.ws s /\
  (if bool_decide
        (r ∈ omap (fun m => Gateway.motors srv !! m.1) state_motors)
   then True
   else Gateway.motor_objs s' !! r = Gateway.motor_objs s !! r).
Proof.
  cbv zeta. cbn [Gateway.sync_round fst snd Gateway.motor_objs
    Gateway.with_motor_objs Gateway.disk_objs Gateway.io_objs Gateway.ws].
  assert (Hn : WsMotor.name
                 <$> Gateway.incoming srv state_motors (Gateway.motor_objs s)
               = WsMotor.name <$> Gateway.motor_objs s)
    by (apply incoming_fmap; reflexivity).
  split; [reflexivity |].
  split.
  { rewrite <- (length_fmap WsMotor.name), Hn. apply length_fmap. }
  split; [exact Hn |].
  split; [apply incoming_fmap; reflexivity |].
  split; [apply incoming_fmap; reflexivity |].
  split; [reflexivity |]. split; [reflexivity |]. split; [reflexivity |].
  case_bool_decide as Hr; [exact I |].
  apply incoming_other. exact Hr.
Qed.

(** X20: a present position the simulator reports under a name the server
    knows reaches the wrapper around that actuator: after the round, the
    wrapper's [present_position] is the reported raw angle in the logical
    frame, while its goal and compliance are unchanged.  (Should the answer
    address the actuator more than once, the reports are taken to agree.) *)
Theorem sync_round_delivers_present_position
    {A : Type} `{PyNum A}
    (srv : Gateway.WsServer) (state_motors : list (string * A))
    (s : Gateway.Store A) (h : Gateway.handle A)
    (n : string) (p : A) (m : WsMotor.t A) :
  Gateway.motors srv !! n = Some (Gateway.h_motor h) ->
  Gateway.motor_objs s !! Gateway.h_motor h = Some m ->
  (n, p) ∈ state_motors ->
  (forall n' p', (n', p') ∈ state_motors ->
                 Gateway.motors srv !! n' = Some (Gateway.h_motor h) ->
                 p' = p) ->
  let s' := (Gateway.sync_round srv state_motors s).2 in
  Gateway.motor_objs s' !! Gateway.h_motor h
    = Some (WsMotor.set_rot_position p m) /\
  present_position (self (Gateway.load s' h))
    = _as_local_pos (self (Gateway.h_world h)) p /\
  goal_position (self (Gateway.load s' h))
    = goal_position (self (Gateway.load s h)) /\
  compliant (self (Gateway.load s' h)) = compliant (self (Gateway.load s h)).
Proof.
  intros Hn Hm Hin Hall. cbv zeta.
  pose proof (incoming_delivers srv state_motors (Gateway.motor_objs s)
                n (Gateway.h_motor h) p m Hn Hm Hin Hall) as Hd.
  cbn [Gateway.sync_round snd].
  unfold Gateway.load. cbn [Gateway.motor_objs Gateway.with_motor_objs].
  rewrite Hd, Hm. repeat split.
Qed.

(** X21: assigning [goal_position] through a wrapper whose actuator is not
    compliant shows in the next message of [sync]: the message carries an
    entry with the actuator's name and the value in the raw frame, and no
    other actuator of the store has changed. *)
Theorem goal_write_reaches_next_message
    {A : Type} `{PyNum A}
    (srv : Gateway.WsServer) (s : Gateway.Store A) (h : Gateway.handle A)
    (value : A) (m : WsMotor.t A) (other : nat) :
  Gateway.motor_objs s !! Gateway.h_motor h = Some m ->
  WsMotor.compliant m = false ->
  Gateway.h_motor h ∈ Gateway.all_motors srv s ->
  other <> Gateway.h_motor h ->
  let s' := (Gateway.call (set_goal_position value) h s).2 in
  {| Gateway.e_name := WsMotor.name m;
     Gateway.e_goal_position := _to_motor_pos (self (Gateway.h_world h)) value |}
    ∈ Gateway.msg_motors (Gateway.outgoing srv s') /\
  Gateway.motor_objs s' !! other = Gateway.motor_objs s !! other.
Proof.
  intros Hm Hc Hin Hne. cbv zeta.
  unfold Gateway.call. cbn [snd Gateway.h_motor].
  assert (Hload : Gateway.load s h
                  = with_self (with_motor m (self (Gateway.h_world h)))
                      (Gateway.h_world h)).
  { unfold Gateway.load. rewrite Hm. reflexivity. }
  rewrite motor_after_goal_write, Hload.
  change (compliant (self (with_self (with_motor m
                                        (self (Gateway.h_world h)))
                             (Gateway.h_world h))))
    with (WsMotor.compliant m).
  rewrite Hc.
  split.
  - cbn [Gateway.outgoing Gateway.msg_motors].
    apply list_elem_of_omap. exists (Gateway.h_motor h).
    split; [exact Hin |].
    cbn [Gateway.motor_objs Gateway.with_motor_objs].
    rewrite list_lookup_insert_eq by (eapply lookup_lt_Some; eauto).
    reflexivity.
  - cbn [Gateway.motor_objs Gateway.with_motor_objs].
    apply list_lookup_insert_ne. congruence.
Qed.

(** X22: attaching the same motors a second time (the cell run again)
    leaves the first wrappers behind: the server now knows the new
    actuators under the old names, so a reported position reaches the new
    wrapper, while the first wrapper of that name reads what it read before
    the report, and the store holds both generations of actuators. *)
Theorem reattached_motor_shadows_the_first
    {A : Type} `{PyNum A}
    (io : nat) (part : string) (items : list (string * config A))
    (s : Gateway.Store A) (srv : Gateway.WsServer)
    (k : nat) (n : string) (c : config A) (p : A) :
  Gateway.ws s = Some srv ->
  NoDup items.*1 ->
  items !! k = Some (n, c) ->
  exists dict1 s1 dict2 s2 srv2 h1 h2,
    Gateway.attach_dxl_motors io part items s = (Ok dict1, s1) /\
    Gateway.attach_dxl_motors io part items s1 = (Ok dict2, s2) /\
    Gateway.ws s2 = Some srv2 /\
    dict1 !! n = Some h1 /\ dict2 !! n = Some h2 /\
    Gateway.h_motor h2 = Gateway.h_motor h1 + length items /\
    length (Gateway.motor_objs s2)
      = length (Gateway.motor_objs s) + length items + length items /\
    let s3 := (Gateway.sync_round srv2 [ ((part ++ "." ++ n)%string, p) ]
                 s2).2 in
    present_position (self (Gateway.load s3 h2))
      = _as_local_pos (self (Gateway.h_world h2)) p /\
    Gateway.load s3 h1 = Gateway.load s2 h1.
Proof.
  intros Hs Hnd Hk.
  destruct (attach_dxl_motors_item io part items s srv k n c Hs Hnd Hk)
    as (dict1 & s1 & srv1 & Hrun1 & Hws1 & Hm1 & Hd1 & _).
  destruct (attach_dxl_motors_item io part items s1 srv1 k n c Hws1 Hnd Hk)
    as (dict2 & s2 & srv2 & Hrun2 & Hws2 & Hm2 & Hd2 & Hmot2).
  pose proof (attached_motor_lookup part items (Gateway.motor_objs s1) k n c
                Hk) as Hobj2.
  rewrite <- Hm2 in Hobj2.
  assert (Hlen1 : length (Gateway.motor_objs s1)
                  = length (Gateway.motor_objs s) + length items)
    by (rewrite Hm1, length_app, length_fmap; reflexivity).
  assert (Hlen2 : length (Gateway.motor_objs s2)
                  = length (Gateway.motor_objs s1) + length items)
    by (rewrite Hm2, length_app, length_fmap; reflexivity).
  eexists dict1, s1, dict2, s2, srv2, _, _.
  split; [exact Hrun1 |]. split; [exact Hrun2 |]. split; [exact Hws2 |].
  split; [exact Hd1 |]. split; [exact Hd2 |].
  cbn [Gateway.h_motor Gateway.h_world].
  split; [lia |]. split; [lia |].
  cbv zeta. unfold Gateway.load.
  cbn [Gateway.sync_round snd Gateway.motor_objs Gateway.with_motor_objs
       Gateway.h_motor Gateway.h_world].
  split.
  - rewrite (incoming_delivers srv2 _ (Gateway.motor_objs s2)
               (part ++ "." ++ n)%string _ p _ Hmot2 Hobj2).
    + reflexivity.
    + apply list_elem_of_here.
    + intros n' p' Hin _. apply list_elem_of_singleton in Hin. congruence.
  - rewrite incoming_other; [reflexivity |].
    cbn [omap list_omap fst]. rewrite Hmot2. intros Hin.
    apply list_elem_of_singleton in Hin.
    pose proof (lookup_lt_Some _ _ _ Hk). lia.
Qed.

Section SyncRuns.
Context {A : Type} `{PyNum A}.
Implicit Types (srv : Gateway.WsServer) (s : Gateway.Store A).

Lemma outgoing_after_round srv (state_motors : list (string * A)) s :
  Gateway.outgoing srv (Gateway.sync_round srv state_motors s).2
  = Gateway.outgoing srv s.
Proof.
  unfold Gateway.outgoing, Gateway.all_motors, Gateway.all_disks.
  cbn [Gateway.sync_round snd Gateway.motor_objs Gateway.with_motor_objs
       Gateway.disk_objs Gateway.io_objs].
  f_equal. apply list_omap_ext. apply Forall2_same_length_lookup.
  split; [reflexivity |].
  intros i r r' Hr Hr'. rewrite Hr in Hr'. injection Hr' as <-.
  pose proof (incoming_fmap
                (fun m => {| Gateway.e_name := WsMotor.name m;
                             Gateway.e_goal_position :=
                               WsMotor.target_rot_position m |})
                srv state_motors (Gateway.motor_objs s)
                ltac:(reflexivity)) as Hf.
  apply (f_equal (fun l => l !! r)) in Hf.
  rewrite !list_lookup_fmap in Hf. exact Hf.
Qed.

Lemma sync_rounds_messages srv (answers : list (list (string * A))) s :
  (Gateway.sync_rounds srv answers s).1
  = replicate (length answers) (Gateway.outgoing srv s) /\
  Gateway.ws (Gateway.sync_rounds srv answers s).2 = Gateway.ws s /\
  WsMotor.target_rot_position
    <$> Gateway.motor_objs (Gateway.sync_rounds srv answers s).2
  = WsMotor.target_rot_position <$> Gateway.motor_objs s.
Proof.
  revert s. induction answers as [| a answers IH]; intros s;
    [repeat split |].
  cbn [Gateway.sync_rounds].
  destruct (Gateway.sync_round srv a s) as [msg s1] eqn:E.
  assert (Hmsg : msg = Gateway.outgoing srv s)
    by (apply (f_equal fst) in E; symmetry; exact E).
  assert (Hs1 : s1 = (Gateway.sync_round srv a s).2)
    by (rewrite E; reflexivity).
  specialize (IH s1).
  destruct (Gateway.sync_rounds srv answers s1) as [msgs s2].
  cbn [fst snd length replicate] in *.
  destruct IH as (Hm & Hw & Ht).
  split; [| split].
  - rewrite Hm, Hmsg, Hs1, outgoing_after_round. reflexivity.
  - rewrite Hw, Hs1. reflexivity.
  - rewrite Ht, Hs1. cbn [Gateway.sync_round snd Gateway.motor_objs
      Gateway.with_motor_objs].
    apply incoming_fmap. reflexivity.
Qed.
End SyncRuns.

(** X23: left to itself, [sync] sends one message per answer of the client
    and every one of them is the message it sent first: what the client
    reports changes present positions only, never a name or a target, so
    the messages change only when somebody assigns a goal in between.  The
    call sets [running] and leaves the rest of the server alone. *)
Theorem sync_repeats_its_message
    {A : Type} `{PyNum A}
    (answers : list (list (string * A))) (s : Gateway.Store A) :
  match Gateway.ws s with
  | None => Gateway.sync answers s = ([], s)
  | Some srv =>
      (Gateway.sync answers s).1
      = replicate (length answers)
          (Gateway.outgoing (Gateway.set_running true srv) s) /\
      Gateway.ws (Gateway.sync answers s).2
      = Some (Gateway.set_running true srv) /\
      WsMotor.target_rot_position
        <$> Gateway.motor_objs (Gateway.sync answers s).2
      = WsMotor.target_rot_position <$> Gateway.motor_objs s
  end.
Proof.
  unfold Gateway.sync. destruct (Gateway.ws s) as [srv |]; [| reflexivity].
  destruct (sync_rounds_messages (Gateway.set_running true srv) answers
              (Gateway.with_ws (Gateway.set_running true srv) s))
    as (Hm & Hw & Ht).
  split; [exact Hm |]. split; [exact Hw | exact Ht].
Qed.

(** ** The notebook's head, as an instance *)

Lemma setup_orbita_disks_sets_each_offset_witness :
  let objs := Gateway.disk_objs head_disks.2 in
  let d := WsFakeOrbitaDisk.__init__ "head.disk_top" (-60)%float in
  NoDup head_disks.1 /\ head_disks.1 !! 2 = Some 2 /\
  hardware_zero !! 2 = Some 111.107%float /\ objs !! 2 = Some d /\
  Orbita.setup_orbita_disks head_disks.1 hardware_zero objs !! 2
  = Some (WsFakeOrbitaDisk.set_offset
            (PrimFloat.add (Orbita._find_zero d 111.107%float)
               (float_of_int 60)) d).
Proof.
  cbv zeta.
  assert (Hnd : NoDup head_disks.1).
  { apply (bool_decide_unpack _). vm_compute. exact I. }
  assert (Hi : head_disks.1 !! 2 = Some 2) by reflexivity.
  assert (Hz : hardware_zero !! 2 = Some 111.107%float) by reflexivity.
  assert (Hd : Gateway.disk_objs head_disks.2 !! 2
               = Some (WsFakeOrbitaDisk.__init__ "head.disk_top"
                         (-60)%float)) by reflexivity.
  split; [exact Hnd |]. split; [exact Hi |]. split; [exact Hz |].
  split; [exact Hd |].
  exact (setup_orbita_disks_sets_each_offset head_disks.1 hardware_zero
           (Gateway.disk_objs head_disks.2) 2 2 111.107%float _
           Hnd Hi Hz Hd).
Defined.

Lemma attach_dxl_motors_registers_every_motor_witness :
  Gateway.ws head_store = Some head_server /\
  NoDup head_dxl_motors.*1 /\
  exists dict s' srv',
    Gateway.attach_dxl_motors 0 "head" head_dxl_motors head_store
    = (Ok dict, s') /\
    Gateway.ws s' = Some srv' /\
    Gateway.motors srv' !! "head.right_antenna" = Some 1.
Proof.
  assert (Hs : Gateway.ws head_store = Some head_server) by reflexivity.
  assert (Hnd : NoDup head_dxl_motors.*1).
  { apply (bool_decide_unpack _). vm_compute. exact I. }
  split; [exact Hs |]. split; [exact Hnd |].
  destruct (attach_dxl_motors_registers_every_motor 0 "head" head_dxl_motors
              head_store head_server 1 "right_antenna"
              {| cfg_offset := 0%float; cfg_orientation := "direct" |}
              Hs Hnd eq_refl)
    as (dict & s' & srv' & Hrun & Hws & _ & _ & _ & Hmot & _).
  exists dict, s', srv'.
  split; [exact Hrun |]. split; [exact Hws |]. exact Hmot.
Defined.

Lemma sync_round_delivers_present_position_witness :
  Gateway.motors antennas_server !! "head.left_antenna"
    = Some (Gateway.h_motor left_antenna_handle) /\
  present_position
    (self (Gateway.load
             (Gateway.sync_round antennas_server
                [ ("head.left_antenna", 30%float);
                  ("head.nose", 5%float) ] antennas_store).2
             left_antenna_handle))
  = 30%float.
Proof.
  assert (Hn : Gateway.motors antennas_server !! "head.left_antenna"
               = Some (Gateway.h_motor left_antenna_handle))
    by (vm_compute; reflexivity).
  split; [exact Hn |].
  destruct (sync_round_delivers_present_position antennas_server
              [ ("head.left_antenna", 30%float); ("head.nose", 5%float) ]
              antennas_store left_antenna_handle "head.left_antenna"
              30%float
              (Session.find_dxl "head" "left_antenna"
                 {| cfg_offset := 0%float; cfg_orientation := "direct" |})
              Hn eq_refl ltac:(apply list_elem_of_here))
    as (_ & Hp & _).
  - intros n' p' Hin Hn'.
    apply elem_of_cons in Hin as [Hin | Hin]; [congruence |].
    apply list_elem_of_singleton in Hin. injection Hin as -> ->.
    vm_compute in Hn'. discriminate Hn'.
  - rewrite Hp. vm_compute. reflexivity.
Defined.

Lemma goal_write_reaches_next_message_witness :
  Gateway.h_motor left_antenna_handle
    ∈ Gateway.all_motors antennas_server antennas_store /\
  {| Gateway.e_name := "head.left_antenna";
     Gateway.e_goal_position := 45%float |}
    ∈ Gateway.msg_motors
        (Gateway.outgoing antennas_server
           (Gateway.call (set_goal_position 45%float) left_antenna_handle
              antennas_store).2).
Proof.
  assert (Hin : Gateway.h_motor left_antenna_handle
                  ∈ Gateway.all_motors antennas_server antennas_store).
  { vm_compute. apply list_elem_of_here. }
  split; [exact Hin |].
  destruct (goal_write_reaches_next_message antennas_server antennas_store
              left_antenna_handle 45%float
              (Session.find_dxl "head" "left_antenna"
                 {| cfg_offset := 0%float; cfg_orientation := "direct" |})
              1 eq_refl eq_refl Hin ltac:(discriminate))
    as [Hmsg _].
  exact Hmsg.
Defined.

Lemma reattached_motor_shadows_the_first_witness :
  Gateway.ws head_store = Some head_server /\
  NoDup head_dxl_motors.*1 /\
  exists dict1 s1 dict2 s2,
    Gateway.attach_dxl_motors 0 "head" head_dxl_motors head_store
    = (Ok dict1, s1) /\
    Gateway.attach_dxl_motors 0 "head" head_dxl_motors s1 = (Ok dict2, s2) /\
    length (Gateway.motor_objs s2) = 4.
Proof.
  assert (Hs : Gateway.ws head_store = Some head_server) by reflexivity.
  assert (Hnd : NoDup head_dxl_motors.*1).
  { apply (bool_decide_unpack _). vm_compute. exact I. }
  split; [exact Hs |]. split; [exact Hnd |].
  destruct (reattached_motor_shadows_the_first 0 "head" head_dxl_motors
              head_store head_server 0 "left_antenna"
              {| cfg_offset := 0%float; cfg_orientation := "direct" |}
              30%float Hs Hnd eq_refl)
    as (dict1 & s1 & dict2 & s2 & srv2 & h1 & h2 & H1 & H2 & _ & _ & _ & _
        & Hlen & _).
  exists dict1, s1, dict2, s2.
  split; [exact H1 |]. split; [exact H2 |]. exact Hlen.
Defined.
